(** * The cuBLAS level-1 backend of oneMKL (src/blas/backends/cublas/cublas_level1.cpp)

    A shallow embedding of the level-1 launchers: every routine is a
    computation in a state-and-fault monad over the SYCL runtime (the
    device memory, the cached cuBLAS handles with their pointer mode, the
    command groups submitted and not yet executed) and the trace of what
    the backend asked of the runtime and of cuBLAS. *)

From Stdlib Require Import ZArith String List Lia.
From Stdlib Require Import Floats.SpecFloat.
From stdpp Require Import base option list gmap strings.

Local Open Scope Z_scope.

(** ** Element values *)

(** What a buffer cell or a host scalar holds.  [float] is IEEE binary32,
    [double] binary64, [int] the 32-bit result type of cuBLAS index
    routines, [int64_t] the index type of the oneMKL interface.  Counts
    and strides are [int64_t] arguments, read as integers; [std::abs] on
    them is [Z.abs] (C++ leaves it undefined at the least [int64_t]
    only). *)
Inductive val :=
| VFloat (f : spec_float)
| VDouble (f : spec_float)
| VComplexFloat (re im : spec_float)
| VComplexDouble (re im : spec_float)
| VInt (z : Z)
| VInt64 (z : Z)
| VUninit.

(** binary32 and binary64 arithmetic of the host *)
Definition float_add : spec_float → spec_float → spec_float := SFadd 24 128.
Definition float_mul : spec_float → spec_float → spec_float := SFmul 24 128.

(** [(double) f] for a [float] f: the same real number with a 53-bit
    significand. *)
Definition double_of_float (f : spec_float) : spec_float :=
  match f with
  | S754_finite s m e => binary_normalize 53 1024 (cond_Zopp s (Zpos m)) e s
  | _ => f
  end.

(** two's complement [int64_t] *)
Definition int64_wrap (z : Z) : Z := (z + 2 ^ 63) mod 2 ^ 64 - 2 ^ 63.
Definition int64_sub (a b : Z) : Z := int64_wrap (a - b).

(** the range of [int] *)
Definition is_int (z : Z) : Prop := - 2 ^ 31 ≤ z < 2 ^ 31.

(** The conversion of an [int64_t] to [int]: cuBLAS declares its counts and
    strides as [int], so every [int64_t] count or stride a launcher hands
    to a native routine is converted on the call, keeping the low 32 bits
    (two's complement). *)
Definition to_int (z : Z) : Z := (z + 2 ^ 31) mod 2 ^ 32 - 2 ^ 31.
Arguments to_int : simpl never.

(** ** The runtime *)

Definition context := nat.
Definition handle := nat.
Definition buffer := nat.

Inductive cublasPointerMode_t :=
| CUBLAS_POINTER_MODE_HOST
| CUBLAS_POINTER_MODE_DEVICE.

Definition cublasStatus_t := Z.
Definition CUBLAS_STATUS_SUCCESS : cublasStatus_t := 0.

(** cl::sycl::access::mode *)
Inductive access_mode := read | write | read_write | discard_write.

(** An argument of a native call: an integer, a device pointer obtained
    from an accessor, or the address of a host scalar ([&a]). *)
Inductive arg :=
| AInt (z : Z)
| ADev (p : buffer)
| AHost (v : val).

Inductive event :=
| EvSubmit (reqs : list (buffer * access_mode))
| EvCreateHandle (c : context) (h : handle)
| EvSetPointerMode (h : handle) (m : cublasPointerMode_t)
| EvNativeCall (name : string) (h : handle) (m : cublasPointerMode_t)
               (args : list arg) (err : cublasStatus_t)
| EvHostAccess (b : buffer) (m : access_mode).

(** What an interop task sees: device memory, the handle cache keyed by
    native context, the pointer-mode flag of every handle, the trace. *)
Record device := Device {
  memory : gmap buffer (list val);
  handles : gmap context handle;
  pointer_modes : gmap handle cublasPointerMode_t;
  trace : list event
}.

Definition log (e : event) (d : device) : device :=
  Device (memory d) (handles d) (pointer_modes d) (trace d ++ [e]).

Definition set_memory (m : gmap buffer (list val)) (d : device) : device :=
  Device m (handles d) (pointer_modes d) (trace d).

(** A handle that was never switched is in host pointer mode: "By default
    the pointer mode is the CUBLAS_POINTER_MODE_HOST". *)
Definition mode_of (d : device) (h : handle) : cublasPointerMode_t :=
  default CUBLAS_POINTER_MODE_HOST (pointer_modes d !! h).

(** ** Faults and the monad *)

(** Faults raised inside an interop task. *)
Inductive task_fault :=
| BackendUnavailable
| ContextBindingError
| NativeCallFailure (routine : string) (code : cublasStatus_t).

(** Faults seen by the caller of a routine.  [InvalidAccess] stands for
    the undefined behaviour of indexing a host accessor out of range or at
    a cell of another type. *)
Inductive fault :=
| OverflowError
| DeviceFault (f : task_fault)
| InvalidAccess.

Inductive result (E A : Type) :=
| Ok (a : A)
| Raise (e : E).
Arguments Ok {E A} a.
Arguments Raise {E A} e.

Definition SE (E S A : Type) : Type := S → result E A * S.

Definition se_ret {E S A} (a : A) : SE E S A := λ s, (Ok a, s).

Definition se_bind {E S A B} (c : SE E S A) (k : A → SE E S B) : SE E S B :=
  λ s, match c s with
       | (Ok a, s') => k a s'
       | (Raise e, s') => (Raise e, s')
       end.

Notation "x <- c ;; k" := (se_bind c (λ x, k))
  (at level 100, c at next level, k at level 200, right associativity).
Notation "c ;;; k" := (se_bind c (λ _, k))
  (at level 100, k at level 200, right associativity).

(** The body of an interop task, run on the device side. *)
Definition Task (A : Type) : Type := SE task_fault device A.

(** The runtime as the host sees it: the device and the command groups
    submitted to the queue that have not run yet, oldest first. *)
Record runtime := Runtime {
  dev : device;
  pending : list (Task unit)
}.

Definition Host (A : Type) : Type := SE fault runtime A.

(** ** SYCL *)

(** A queue, as far as handle acquisition can tell queues apart: whether
    its device has a cuBLAS backend, and the native context behind it when
    it can be retrieved. *)
Record queue := Queue {
  q_backend : bool;
  q_context : option context
}.

(** [queue.submit]: the command group is recorded with the accessors it
    requested and its interop task is enqueued.  A SYCL runtime may start
    the task at any time from here on; the model runs it at the next
    synchronisation point, so what is stated about a routine's effects is
    stated once its work has completed. *)
Definition submit (q : queue) (cg : list (buffer * access_mode) * Task unit)
  : Host unit :=
  λ rt, (Ok tt, Runtime (log (EvSubmit (fst cg)) (dev rt)) (pending rt ++ [snd cg])).

(** Running enqueued tasks in submission order; a fault stops the run and
    leaves the later tasks enqueued. *)
Fixpoint drain (ts : list (Task unit)) (d : device)
  : result task_fault unit * device * list (Task unit) :=
  match ts with
  | [] => (Ok tt, d, [])
  | t :: ts' =>
      match t d with
      | (Ok _, d') => drain ts' d'
      | (Raise f, d') => (Raise f, d', ts')
      end
  end.

(** [queue.wait], and what creating a host accessor, or destroying a buffer
    that wraps host memory, does first: block until the submitted work is
    done.  SYCL waits for the command groups that use the buffer; here all
    the submitted work is completed, in submission order. *)
Definition wait : Host unit :=
  λ rt, match drain (pending rt) (dev rt) with
        | (Ok _, d, ts) => (Ok tt, Runtime d ts)
        | (Raise f, d, ts) => (Raise (DeviceFault f), Runtime d ts)
        end.

(** [cl::sycl::buffer<T, 1> b{...}]: a new buffer with the given cells. *)
Definition new_buffer (cells : list val) : Host buffer :=
  λ rt, let d := dev rt in
        let b := fresh (dom (memory d)) in
        (Ok b, Runtime (set_memory (<[b := cells]> (memory d)) d) (pending rt)).

(** The destructor of a buffer, once the work that uses it is done. *)
Definition destroy_buffer (b : buffer) : Host unit :=
  λ rt, let d := dev rt in
        (Ok tt, Runtime (set_memory (delete b (memory d)) d) (pending rt)).

(** A buffer that is a local variable of a routine: created where it is
    declared and destroyed when the routine is left, whether it returns or
    a fault propagates out of it. *)
Definition with_buffer {A} (cells : list val) (body : buffer → Host A) : Host A :=
  λ rt, match new_buffer cells rt with
        | (Ok b, rt1) =>
            let '(r, rt2) := body b rt1 in (r, (destroy_buffer b rt2).2)
        | (Raise e, rt1) => (Raise e, rt1)
        end.

(** [b.get_access<m>()] on the host: a synchronisation point. *)
Definition host_access (b : buffer) (m : access_mode) : Host buffer :=
  wait ;;;
  λ rt, (Ok b, Runtime (log (EvHostAccess b m) (dev rt)) (pending rt)).

(** [acc[i]] read and written through a host accessor *)
Definition host_read (acc : buffer) (i : nat) : Host val :=
  λ rt, match memory (dev rt) !! acc ≫= (λ cells, cells !! i) with
        | Some v => (Ok v, rt)
        | None => (Raise InvalidAccess, rt)
        end.

Definition host_write (acc : buffer) (i : nat) (v : val) : Host unit :=
  λ rt, let d := dev rt in
        match memory d !! acc with
        | Some cells =>
            if decide (i < length cells)%nat
            then (Ok tt, Runtime (set_memory (<[acc := <[i := v]> cells]> (memory d)) d)
                                 (pending rt))
            else (Raise InvalidAccess, rt)
        | None => (Raise InvalidAccess, rt)
        end.

Definition raise {S A} (f : fault) : SE fault S A := λ s, (Raise f, s).

(** ** cuBLAS *)

(** A routine of the vendor library as the launchers use it: its name and
    what a call does.  The call reads the pointer mode of its handle,
    takes its arguments in order (a count or a stride arrives as an [int],
    see [to_int]), may read and write device memory, and returns a
    status.  Nothing is assumed about what it computes. *)
Record native_routine := Native {
  fn_name : string;
  fn_run : cublasPointerMode_t → list arg → gmap buffer (list val) →
           cublasStatus_t * gmap buffer (list val)
}.

(** [cublasSetPointerMode(handle, mode)]; the launchers drop its status. *)
Definition cublasSetPointerMode (h : handle) (m : cublasPointerMode_t) : Task unit :=
  λ d, (Ok tt, Device (memory d) (handles d) (<[h := m]> (pointer_modes d))
                      (trace d ++ [EvSetPointerMode h m])).

(** ** cublas_helper.hpp and cublas_scope_handle.hpp *)

Definition max_abs (strides : list Z) : Z :=
  foldr (λ s acc, Z.max (Z.abs s) acc) 0 strides.

(** the native integer width: cuBLAS counts and strides are [int] *)
Definition fits_native (v : Z) : bool := (- 2 ^ 31 <=? v) && (v <? 2 ^ 31).

(** Modelled from the spec: [overflow_check] of cublas_helper.hpp, which is
    not among the sources.  "every routine taking a count n and one or more
    strides validates that n * max(|stride|) does not overflow the native
    integer width; violation faults with OverflowError" -- on the host,
    before anything else. *)
Definition overflow_check (n : Z) (strides : list Z) : Host unit :=
  λ rt, if fits_native (n * max_abs strides) then (Ok tt, rt)
        else (Raise OverflowError, rt).

(** Modelled from the spec: the macro [CUBLAS_ERROR_FUNC] of
    cublas_helper.hpp, which is not among the sources.  "the native status
    code is captured and converted to a fault carrying the routine name and
    native code; no retry is attempted": one call, then the status test. *)
Definition CUBLAS_ERROR_FUNC (func : native_routine) (h : handle) (args : list arg)
  : Task unit :=
  λ d, let m := mode_of d h in
       let '(err, mem') := fn_run func m args (memory d) in
       let d' := log (EvNativeCall (fn_name func) h m args err) (set_memory mem' d) in
       if decide (err = CUBLAS_STATUS_SUCCESS) then (Ok tt, d')
       else (Raise (NativeCallFailure (fn_name func) err), d').

(** Modelled from the spec: [CublasScopedContextHandler] of
    cublas_scope_handle.hpp, which is not among the sources.  The scope
    object itself carries nothing the launchers use. *)
Definition CublasScopedContextHandler (q : queue) : Task unit := se_ret tt.

(** Modelled from the spec: [CublasScopedContextHandler::get_handle].
    "returns the same handle object for repeated calls on queues sharing
    the same underlying native context; creation is performed at most once
    per context"; "fails with BackendUnavailable if the device behind the
    queue has no corresponding native backend; fails with
    ContextBindingError if native context retrieval from the queue
    fails".  A created handle is a new one and starts in host pointer
    mode. *)
Definition get_handle (sc : unit) (q : queue) : Task handle :=
  λ d, if q_backend q then
         match q_context q with
         | None => (Raise ContextBindingError, d)
         | Some c =>
             match handles d !! c with
             | Some h => (Ok h, d)
             | None =>
                 let h := fresh (dom (pointer_modes d) ∪ map_img (handles d)) in
                 (Ok h, Device (memory d) (<[c := h]> (handles d))
                               (<[h := CUBLAS_POINTER_MODE_HOST]> (pointer_modes d))
                               (trace d ++ [EvCreateHandle c h]))
             end
         end
       else (Raise BackendUnavailable, d).

(** Modelled from the spec: [CublasScopedContextHandler::get_mem], "given a
    device-visible buffer and an access mode, yields a raw native-memory
    pointer": the accessor's buffer, seen as a device pointer. *)
Definition get_mem (acc : buffer) : buffer := acc.

(** ** Level 1 *)

Section Level1.

(** What the vendor's [cublasSdot] does; the two emulated routines call it
    by name instead of taking it as a template argument. *)
Variable cublasSdot_run :
  cublasPointerMode_t → list arg → gmap buffer (list val) →
  cublasStatus_t * gmap buffer (list val).

Definition cublasSdot : native_routine := Native "cublasSdot" cublasSdot_run.

Definition asum (func : native_routine) (queue : queue) (n : Z) (x : buffer)
    (incx : Z) (result : buffer) : Host unit :=
  overflow_check n [incx] ;;;
  submit queue
    ([(x, read); (result, write)],
     sc <- CublasScopedContextHandler queue ;;
     handle <- get_handle sc queue ;;
     cublasSetPointerMode handle CUBLAS_POINTER_MODE_DEVICE ;;;
     let x_ := get_mem x in
     let res_ := get_mem result in
     (* ASUM does not support negative index *)
     CUBLAS_ERROR_FUNC func handle
       [AInt (to_int n); ADev x_; AInt (to_int (Z.abs incx)); ADev res_]).

Definition scal (func : native_routine) (queue : queue) (n : Z) (a : val)
    (x : buffer) (incx : Z) : Host unit :=
  overflow_check n [incx] ;;;
  submit queue
    ([(x, read_write)],
     sc <- CublasScopedContextHandler queue ;;
     handle <- get_handle sc queue ;;
     let x_ := get_mem x in
     (* SCAL does not support negative incx *)
     CUBLAS_ERROR_FUNC func handle
       [AInt (to_int n); AHost a; ADev x_; AInt (to_int (Z.abs incx))]).

Definition axpy (func : native_routine) (queue : queue) (n : Z) (alpha : val)
    (x : buffer) (incx : Z) (y : buffer) (incy : Z) : Host unit :=
  overflow_check n [incx; incy] ;;;
  submit queue
    ([(x, read); (y, read_write)],
     sc <- CublasScopedContextHandler queue ;;
     handle <- get_handle sc queue ;;
     let x_ := get_mem x in
     let y_ := get_mem y in
     CUBLAS_ERROR_FUNC func handle
       [AInt (to_int n); AHost alpha; ADev x_; AInt (to_int incx); ADev y_;
        AInt (to_int incy)]).

Definition rotg (func : native_routine) (queue : queue) (a b c s : buffer)
  : Host unit :=
  submit queue
    ([(a, read_write); (b, read_write); (c, read_write); (s, read_write)],
     sc <- CublasScopedContextHandler queue ;;
     handle <- get_handle sc queue ;;
     cublasSetPointerMode handle CUBLAS_POINTER_MODE_DEVICE ;;;
     let a_ := get_mem a in
     let b_ := get_mem b in
     let c_ := get_mem c in
     let s_ := get_mem s in
     CUBLAS_ERROR_FUNC func handle [ADev a_; ADev b_; ADev c_; ADev s_]).

Definition rotm (func : native_routine) (queue : queue) (n : Z) (x : buffer)
    (incx : Z) (y : buffer) (incy : Z) (param : buffer) : Host unit :=
  overflow_check n [incx; incy] ;;;
  submit queue
    ([(x, read_write); (y, read_write); (param, read)],
     sc <- CublasScopedContextHandler queue ;;
     handle <- get_handle sc queue ;;
     cublasSetPointerMode handle CUBLAS_POINTER_MODE_DEVICE ;;;
     let x_ := get_mem x in
     let y_ := get_mem y in
     let param_ := get_mem param in
     CUBLAS_ERROR_FUNC func handle
       [AInt (to_int n); ADev x_; AInt (to_int incx); ADev y_; AInt (to_int incy);
        ADev param_]).

Definition copy (func : native_routine) (queue : queue) (n : Z) (x : buffer)
    (incx : Z) (y : buffer) (incy : Z) : Host unit :=
  overflow_check n [incx; incy] ;;;
  submit queue
    ([(x, read); (y, read_write)],
     sc <- CublasScopedContextHandler queue ;;
     handle <- get_handle sc queue ;;
     let x_ := get_mem x in
     let y_ := get_mem y in
     CUBLAS_ERROR_FUNC func handle
       [AInt (to_int n); ADev x_; AInt (to_int incx); ADev y_; AInt (to_int incy)]).

Definition dot (func : native_routine) (queue : queue) (n : Z) (x : buffer)
    (incx : Z) (y : buffer) (incy : Z) (result : buffer) : Host unit :=
  overflow_check n [incx; incy] ;;;
  submit queue
    ([(x, read); (y, read); (result, write)],
     sc <- CublasScopedContextHandler queue ;;
     handle <- get_handle sc queue ;;
     cublasSetPointerMode handle CUBLAS_POINTER_MODE_DEVICE ;;;
     let x_ := get_mem x in
     let y_ := get_mem y in
     let res_ := get_mem result in
     CUBLAS_ERROR_FUNC func handle
       [AInt (to_int n); ADev x_; AInt (to_int incx); ADev y_; AInt (to_int incy);
        ADev res_]).

Definition rot (func : native_routine) (queue : queue) (n : Z) (x : buffer)
    (incx : Z) (y : buffer) (incy : Z) (c s : val) : Host unit :=
  overflow_check n [incx; incy] ;;;
  submit queue
    ([(x, read_write); (y, read_write)],
     sc <- CublasScopedContextHandler queue ;;
     handle <- get_handle sc queue ;;
     (* cublasSetPointerMode(handle, CUBLAS_POINTER_MODE_DEVICE); *)
     let x_ := get_mem x in
     let y_ := get_mem y in
     CUBLAS_ERROR_FUNC func handle
       [AInt (to_int n); ADev x_; AInt (to_int incx); ADev y_; AInt (to_int incy);
        AHost c; AHost s]).

Definition sdsdot (queue : queue) (n : Z) (sb : spec_float) (x : buffer)
    (incx : Z) (y : buffer) (incy : Z) (result : buffer) : Host unit :=
  overflow_check n [incx; incy] ;;;
  (* cuBLAS does not support sdot so we need to mimic sdot. *)
  submit queue
    ([(x, read); (y, read); (result, write)],
     sc <- CublasScopedContextHandler queue ;;
     handle <- get_handle sc queue ;;
     cublasSetPointerMode handle CUBLAS_POINTER_MODE_DEVICE ;;;
     let x_ := get_mem x in
     let y_ := get_mem y in
     let res_ := get_mem result in
     CUBLAS_ERROR_FUNC cublasSdot handle
       [AInt (to_int n); ADev x_; AInt (to_int incx); ADev y_; AInt (to_int incy);
        ADev res_]) ;;;
  (* result.get_access<read_write>()[0] += sb; *)
  acc <- host_access result read_write ;;
  r <- host_read acc 0 ;;
  match r with
  | VFloat f => host_write acc 0 (VFloat (float_add f sb))
  | _ => raise InvalidAccess
  end.

(** the overload [dot] with [float] vectors and a [double] result *)
Definition dot_float_double (queue : queue) (n : Z) (x : buffer) (incx : Z)
    (y : buffer) (incy : Z) (result : buffer) : Host unit :=
  overflow_check n [incx; incy] ;;;
  with_buffer [VUninit] (λ float_res_buff,
  submit queue
    ([(x, read); (y, read); (float_res_buff, write)],
     sc <- CublasScopedContextHandler queue ;;
     handle <- get_handle sc queue ;;
     cublasSetPointerMode handle CUBLAS_POINTER_MODE_DEVICE ;;;
     let x_ := get_mem x in
     let y_ := get_mem y in
     let float_res_ := get_mem float_res_buff in
     CUBLAS_ERROR_FUNC cublasSdot handle
       [AInt (to_int n); ADev x_; AInt (to_int incx); ADev y_; AInt (to_int incy);
        ADev float_res_]) ;;;
  (* result[0] = (double)float_res_buff[0]; the right-hand side first *)
  src <- host_access float_res_buff read ;;
  r <- host_read src 0 ;;
  dst <- host_access result discard_write ;;
  match r with
  | VFloat f => host_write dst 0 (VDouble (double_of_float f))
  | _ => raise InvalidAccess
  end).

Definition rotmg (func : native_routine) (queue : queue) (d1 d2 x1 : buffer)
    (y1 : val) (param : buffer) : Host unit :=
  with_buffer [y1] (λ y1_buff,
  submit queue
    ([(d1, read_write); (d2, read_write); (x1, read_write); (y1_buff, read);
      (param, read_write)],
     sc <- CublasScopedContextHandler queue ;;
     handle <- get_handle sc queue ;;
     cublasSetPointerMode handle CUBLAS_POINTER_MODE_DEVICE ;;;
     let d1_ := get_mem d1 in
     let d2_ := get_mem d2 in
     let x1_ := get_mem x1 in
     let y1_ := get_mem y1_buff in
     let param_ := get_mem param in
     CUBLAS_ERROR_FUNC func handle [ADev d1_; ADev d2_; ADev x1_; ADev y1_; ADev param_]) ;;;
  (* y1_buff wraps host memory: its destructor blocks until the task is done *)
  wait).

(** [std::max((int64_t)i - 1, int64_t{ 0 })] *)
Definition zero_based (i : Z) : Z := Z.max (int64_sub i 1) 0.

Definition iamax (func : native_routine) (queue : queue) (n : Z) (x : buffer)
    (incx : Z) (result : buffer) : Host unit :=
  overflow_check n [incx] ;;;
  with_buffer [VUninit] (λ int_res_buff,
  submit queue
    ([(x, read); (int_res_buff, write)],
     sc <- CublasScopedContextHandler queue ;;
     handle <- get_handle sc queue ;;
     cublasSetPointerMode handle CUBLAS_POINTER_MODE_DEVICE ;;;
     let x_ := get_mem x in
     let int_res_ := get_mem int_res_buff in
     (* For negative incx, iamax returns 0. *)
     CUBLAS_ERROR_FUNC func handle
       [AInt (to_int n); ADev x_; AInt (to_int incx); ADev int_res_]) ;;;
  (* result[0] = std::max((int64_t)int_res_buff[0] - 1, 0); the right-hand side first *)
  src <- host_access int_res_buff read ;;
  r <- host_read src 0 ;;
  dst <- host_access result write ;;
  match r with
  | VInt i => host_write dst 0 (VInt64 (zero_based i))
  | _ => raise InvalidAccess
  end).

Definition swap (func : native_routine) (queue : queue) (n : Z) (x : buffer)
    (incx : Z) (y : buffer) (incy : Z) : Host unit :=
  overflow_check n [incx; incy] ;;;
  submit queue
    ([(x, read_write); (y, read_write)],
     sc <- CublasScopedContextHandler queue ;;
     handle <- get_handle sc queue ;;
     let x_ := get_mem x in
     let y_ := get_mem y in
     CUBLAS_ERROR_FUNC func handle
       [AInt (to_int n); ADev x_; AInt (to_int incx); ADev y_; AInt (to_int incy)]).

Definition iamin (func : native_routine) (queue : queue) (n : Z) (x : buffer)
    (incx : Z) (result : buffer) : Host unit :=
  overflow_check n [incx] ;;;
  with_buffer [VUninit] (λ int_res_buff,
  submit queue
    ([(x, read); (int_res_buff, write)],
     sc <- CublasScopedContextHandler queue ;;
     handle <- get_handle sc queue ;;
     cublasSetPointerMode handle CUBLAS_POINTER_MODE_DEVICE ;;;
     let x_ := get_mem x in
     let int_res_ := get_mem int_res_buff in
     (* For negative incx, iamin returns 0. *)
     CUBLAS_ERROR_FUNC func handle
       [AInt (to_int n); ADev x_; AInt (to_int incx); ADev int_res_]) ;;;
  src <- host_access int_res_buff read ;;
  r <- host_read src 0 ;;
  dst <- host_access result write ;;
  match r with
  | VInt i => host_write dst 0 (VInt64 (zero_based i))
  | _ => raise InvalidAccess
  end).

Definition nrm2 (func : native_routine) (queue : queue) (n : Z) (x : buffer)
    (incx : Z) (result : buffer) : Host unit :=
  overflow_check n [incx] ;;;
  submit queue
    ([(x, read); (result, write)],
     sc <- CublasScopedContextHandler queue ;;
     handle <- get_handle sc queue ;;
     cublasSetPointerMode handle CUBLAS_POINTER_MODE_DEVICE ;;;
     let x_ := get_mem x in
     let res_ := get_mem result in
     (* NRM2 does not support negative index *)
     CUBLAS_ERROR_FUNC func handle
       [AInt (to_int n); ADev x_; AInt (to_int (Z.abs incx)); ADev res_]).

(** One invocation of a level-1 entry point, by name and arguments. *)
Inductive call :=
| Asum (func : native_routine) (n : Z) (x : buffer) (incx : Z) (result : buffer)
| Scal (func : native_routine) (n : Z) (a : val) (x : buffer) (incx : Z)
| Axpy (func : native_routine) (n : Z) (alpha : val) (x : buffer) (incx : Z)
       (y : buffer) (incy : Z)
| Rotg (func : native_routine) (a b c s : buffer)
| Rotm (func : native_routine) (n : Z) (x : buffer) (incx : Z) (y : buffer)
       (incy : Z) (param : buffer)
| Copy (func : native_routine) (n : Z) (x : buffer) (incx : Z) (y : buffer) (incy : Z)
| Dot (func : native_routine) (n : Z) (x : buffer) (incx : Z) (y : buffer)
      (incy : Z) (result : buffer)
| Rot (func : native_routine) (n : Z) (x : buffer) (incx : Z) (y : buffer)
      (incy : Z) (c s : val)
| Sdsdot (n : Z) (sb : spec_float) (x : buffer) (incx : Z) (y : buffer)
         (incy : Z) (result : buffer)
| DotFloatDouble (n : Z) (x : buffer) (incx : Z) (y : buffer) (incy : Z)
                 (result : buffer)
| Rotmg (func : native_routine) (d1 d2 x1 : buffer) (y1 : val) (param : buffer)
| Iamax (func : native_routine) (n : Z) (x : buffer) (incx : Z) (result : buffer)
| Swap (func : native_routine) (n : Z) (x : buffer) (incx : Z) (y : buffer) (incy : Z)
| Iamin (func : native_routine) (n : Z) (x : buffer) (incx : Z) (result : buffer)
| Nrm2 (func : native_routine) (n : Z) (x : buffer) (incx : Z) (result : buffer).

Definition run_call (q : queue) (c : call) : Host unit :=
  match c with
  | Asum func n x incx result => asum func q n x incx result
  | Scal func n a x incx => scal func q n a x incx
  | Axpy func n alpha x incx y incy => axpy func q n alpha x incx y incy
  | Rotg func a b c s => rotg func q a b c s
  | Rotm func n x incx y incy param => rotm func q n x incx y incy param
  | Copy func n x incx y incy => copy func q n x incx y incy
  | Dot func n x incx y incy result => dot func q n x incx y incy result
  | Rot func n x incx y incy c s => rot func q n x incx y incy c s
  | Sdsdot n sb x incx y incy result => sdsdot q n sb x incx y incy result
  | DotFloatDouble n x incx y incy result => dot_float_double q n x incx y incy result
  | Rotmg func d1 d2 x1 y1 param => rotmg func q d1 d2 x1 y1 param
  | Iamax func n x incx result => iamax func q n x incx result
  | Swap func n x incx y incy => swap func q n x incx y incy
  | Iamin func n x incx result => iamin func q n x incx result
  | Nrm2 func n x incx result => nrm2 func q n x incx result
  end.

(** The vendor routine an invocation ends in. *)
Definition native_of (c : call) : native_routine :=
  match c with
  | Asum func _ _ _ _ | Scal func _ _ _ _ | Axpy func _ _ _ _ _ _
  | Rotg func _ _ _ _ | Rotm func _ _ _ _ _ _ | Copy func _ _ _ _ _
  | Dot func _ _ _ _ _ _ | Rot func _ _ _ _ _ _ _ | Rotmg func _ _ _ _ _
  | Iamax func _ _ _ _ | Swap func _ _ _ _ _ | Iamin func _ _ _ _
  | Nrm2 func _ _ _ _ => func
  | Sdsdot _ _ _ _ _ _ _ | DotFloatDouble _ _ _ _ _ _ => cublasSdot
  end.

End Level1.

(** The count and the strides of an invocation; [rotg] and [rotmg] have
    neither. *)
Definition count_and_strides (c : call) : option (Z * list Z) :=
  match c with
  | Asum _ n _ incx _ | Scal _ n _ _ incx | Iamax _ n _ incx _
  | Iamin _ n _ incx _ | Nrm2 _ n _ incx _ => Some (n, [incx])
  | Axpy _ n _ _ incx _ incy | Rotm _ n _ incx _ incy _ | Copy _ n _ incx _ incy
  | Dot _ n _ incx _ incy _ | Rot _ n _ incx _ incy _ _ | Sdsdot n _ _ incx _ incy _
  | DotFloatDouble n _ incx _ incy _ | Swap _ n _ incx _ incy => Some (n, [incx; incy])
  | Rotg _ _ _ _ _ | Rotmg _ _ _ _ _ _ => None
  end.

(** The routines whose native call writes a scalar result into device
    memory: absolute sum, the dot products, norm, and the two rotation
    generators. *)
Definition scalar_result (c : call) : bool :=
  match c with
  | Asum _ _ _ _ _ | Dot _ _ _ _ _ _ _ | Sdsdot _ _ _ _ _ _ _
  | DotFloatDouble _ _ _ _ _ _ | Nrm2 _ _ _ _ _ | Rotg _ _ _ _ _
  | Rotmg _ _ _ _ _ _ => true
  | _ => false
  end.

(** The routines that hand cuBLAS the address of a host scalar. *)
Definition host_scalar (c : call) : bool :=
  match c with
  | Scal _ _ _ _ _ | Axpy _ _ _ _ _ _ _ | Rot _ _ _ _ _ _ _ _ => true
  | _ => false
  end.

Definition is_overflow {A} (r : result fault A) : bool :=
  match r with Raise OverflowError => true | _ => false end.

Definition fits_dims (c : call) : bool :=
  match count_and_strides c with
  | Some (n, strides) => fits_native (n * max_abs strides)
  | None => true
  end.

(** The routines whose interop task calls [cublasSetPointerMode]. *)
Definition switches (c : call) : bool :=
  match c with
  | Scal _ _ _ _ _ | Axpy _ _ _ _ _ _ _ | Copy _ _ _ _ _ _ | Rot _ _ _ _ _ _ _ _
  | Swap _ _ _ _ _ _ => false
  | _ => true
  end.

(** Several invocations in program order; a fault ends the sequence. *)
Definition run_calls (run : queue → call → Host unit) (qcs : list (queue * call))
  : Host unit :=
  foldr (λ qc k, run qc.1 qc.2 ;;; k) (se_ret tt) qcs.

(** ** Reading the trace *)

Definition native_calls (evs : list event) : list (string * cublasStatus_t) :=
  omap (λ e, match e with
             | EvNativeCall name _ _ _ err => Some (name, err)
             | _ => None
             end) evs.

Definition native_args (evs : list event) : list (list arg) :=
  omap (λ e, match e with
             | EvNativeCall _ _ _ args _ => Some args
             | _ => None
             end) evs.

Definition submits (evs : list event) : list (list (buffer * access_mode)) :=
  omap (λ e, match e with EvSubmit reqs => Some reqs | _ => None end) evs.

Definition is_host_access (e : event) : Prop :=
  match e with EvHostAccess _ _ => True | _ => False end.

(** The arguments of the native calls logged once [c] has run to
    completion on a runtime with no outstanding work. *)
Definition issued (c : Host unit) (d : device) : list (list arg) :=
  native_args (trace (dev ((c ;;; wait) (Runtime d [])).2)).

(** How many handles were created for a context. *)
Fixpoint creations (ctx : context) (evs : list event) : nat :=
  match evs with
  | [] => 0
  | EvCreateHandle c _ :: evs' =>
      ((if decide (c = ctx) then 1 else 0) + creations ctx evs')%nat
  | _ :: evs' => creations ctx evs'
  end.

(** One creation logged for each cached context, none for the others. *)
Definition cache_consistent (d : device) : Prop :=
  ∀ ctx, creations ctx (trace d) =
         match handles d !! ctx with Some _ => 1%nat | None => 0%nat end.

(** Successive acquisitions, whatever their outcome. *)
Definition acquire_each (qs : list queue) (d : device) : device :=
  foldl (λ d q, (get_handle tt q d).2) d qs.

(** ** Invariants of the runtime *)

(** A host computation that never raises [OverflowError]. *)
Definition quiet {A} (c : Host A) : Prop := ∀ rt, is_overflow (c rt).1 = false.

Definition mode_event_ok (e : event) : Prop :=
  match e with EvSetPointerMode _ CUBLAS_POINTER_MODE_HOST => False | _ => True end.

(** From [d] to [d'] no handle left device pointer mode, and no switch to
    host pointer mode was logged. *)
Definition stays_device (d d' : device) : Prop :=
  (∀ h, mode_of d h = CUBLAS_POINTER_MODE_DEVICE →
        mode_of d' h = CUBLAS_POINTER_MODE_DEVICE) ∧
  ∃ evs, trace d' = trace d ++ evs ∧ Forall mode_event_ok evs.

Definition task_keeps {A} (t : Task A) : Prop := ∀ d, stays_device d (t d).2.

Definition host_keeps {A} (c : Host A) : Prop :=
  ∀ rt, Forall task_keeps (pending rt) →
        stays_device (dev rt) (dev (c rt).2) ∧ Forall task_keeps (pending (c rt).2).






(** ** Reference semantics of vendor routines

    Used to run the launchers on concrete vectors; the general statements
    below do not depend on them. *)

Definition CUBLAS_STATUS_EXECUTION_FAILED : cublasStatus_t := 13.

(** a routine that reports success and writes nothing *)
Definition stub_run : cublasPointerMode_t → list arg → gmap buffer (list val) →
    cublasStatus_t * gmap buffer (list val) :=
  λ _ _ mem, (CUBLAS_STATUS_SUCCESS, mem).

(** BLAS start index of a strided traversal *)
Definition start_index (n inc : Z) : Z := if inc <? 0 then (1 - n) * inc else 0.

Definition float_of_val (v : val) : option spec_float :=
  match v with VFloat f => Some f | _ => None end.

Fixpoint ref_dot_loop (k : nat) (x y : list val) (ix incx iy incy : Z)
    (acc : spec_float) : option spec_float :=
  match k with
  | O => Some acc
  | S k' =>
      a ← x !! Z.to_nat ix ≫= float_of_val;
      b ← y !! Z.to_nat iy ≫= float_of_val;
      ref_dot_loop k' x y (ix + incx) incx (iy + incy) incy
        (float_add acc (float_mul a b))
  end.

(** [cublasSdot]: the dot product over binary32, accumulated in index
    order and stored in the first cell of the result, which it takes as a
    device pointer. *)
Definition ref_sdot_run (m : cublasPointerMode_t) (args : list arg)
    (mem : gmap buffer (list val)) : cublasStatus_t * gmap buffer (list val) :=
  match m, args with
  | CUBLAS_POINTER_MODE_DEVICE,
    [AInt n; ADev x; AInt incx; ADev y; AInt incy; ADev res] =>
      match mem !! x, mem !! y, mem !! res with
      | Some xs, Some ys, Some (_ :: rs) =>
          match ref_dot_loop (Z.to_nat n) xs ys (start_index n incx) incx
                  (start_index n incy) incy (S754_zero false) with
          | Some r => (CUBLAS_STATUS_SUCCESS, <[res := VFloat r :: rs]> mem)
          | None => (CUBLAS_STATUS_EXECUTION_FAILED, mem)
          end
      | _, _, _ => (CUBLAS_STATUS_EXECUTION_FAILED, mem)
      end
  | _, _ => (CUBLAS_STATUS_EXECUTION_FAILED, mem)
  end.

Definition magnitude (v : val) : option spec_float :=
  match v with VFloat f | VDouble f => Some (SFabs f) | _ => None end.

(** one-based position of the first cell of largest magnitude *)
Fixpoint ref_amax_loop (k : nat) (x : list val) (ix incx pos best : Z)
    (top : spec_float) : option Z :=
  match k with
  | O => Some best
  | S k' =>
      a ← x !! Z.to_nat ix ≫= magnitude;
      if SFltb top a then ref_amax_loop k' x (ix + incx) incx (pos + 1) pos a
      else ref_amax_loop k' x (ix + incx) incx (pos + 1) best top
  end.

(** [cublasIsamax] and [cublasIdamax]: 0 when [n < 1] or [incx <= 0]. *)
Definition ref_iamax_run (m : cublasPointerMode_t) (args : list arg)
    (mem : gmap buffer (list val)) : cublasStatus_t * gmap buffer (list val) :=
  match m, args with
  | CUBLAS_POINTER_MODE_DEVICE, [AInt n; ADev x; AInt incx; ADev res] =>
      if (incx <=? 0) || (n <? 1)
      then (CUBLAS_STATUS_SUCCESS, alter (<[0%nat := VInt 0]>) res mem)
      else match mem !! x ≫= λ xs, ref_amax_loop (Z.to_nat n) xs 0 incx 1 0
                                      (S754_infinity true) with
           | Some i => (CUBLAS_STATUS_SUCCESS, alter (<[0%nat := VInt i]>) res mem)
           | None => (CUBLAS_STATUS_EXECUTION_FAILED, mem)
           end
  | _, _ => (CUBLAS_STATUS_EXECUTION_FAILED, mem)
  end.

Definition cublasIsamax : native_routine := Native "cublasIsamax" ref_iamax_run.
Definition cublasSscal : native_routine := Native "cublasSscal" stub_run.
Definition cublasSasum : native_routine := Native "cublasSasum" stub_run.
Definition cublasScopy : native_routine := Native "cublasScopy" stub_run.

(** [m * 2^e] as a binary32 and as a binary64 number *)
Definition f32 (m e : Z) : spec_float := binary_normalize 24 128 m e false.
Definition f64 (m e : Z) : spec_float := binary_normalize 53 1024 m e false.

(** ** Example data *)

Definition cuda_queue : queue := Queue true (Some 7%nat).

(** buffers: 0 = x = [1, 2, 3], 1 = y = [4, 5, 6] (float); 2 a float
    result, 3 a double result, 4 an int64_t result; 5 = [1, -9, 3]
    (double) *)
Definition example_memory : gmap buffer (list val) :=
  <[0%nat := [VFloat (f32 1 0); VFloat (f32 2 0); VFloat (f32 3 0)]]>
  (<[1%nat := [VFloat (f32 4 0); VFloat (f32 5 0); VFloat (f32 6 0)]]>
  (<[2%nat := [VUninit]]>
  (<[3%nat := [VUninit]]>
  (<[4%nat := [VUninit]]>
  (<[5%nat := [VDouble (f64 1 0); VDouble (f64 (-9) 0); VDouble (f64 3 0)]]> ∅))))).

(** no handle created yet *)
Definition cold_device : device := Device example_memory ∅ ∅ [].

(** handle 0 cached for context 7, in host pointer mode *)
Definition warm_device : device :=
  Device example_memory (<[7%nat := 0%nat]> ∅)
         (<[0%nat := CUBLAS_POINTER_MODE_HOST]> ∅) [].

(** sdsdot(n = 3, sb = 0.5, x, 1, y, 1, result) *)
Definition example_sdsdot : call := Sdsdot 3 (f32 1 (-1)) 0%nat 1 1%nat 1 2%nat.

(** scal(n = 3, a = 2, x, -1) *)
Definition example_scal : call := Scal cublasSscal 3 (VFloat (f32 2 0)) 0%nat (-1).

(** ** Further vocabulary *)

(** The routines that read a result back on the host, or own a buffer
    whose destructor blocks. *)
Definition synchronises (c : call) : bool :=
  match c with
  | Sdsdot _ _ _ _ _ _ _ | DotFloatDouble _ _ _ _ _ _ | Rotmg _ _ _ _ _ _
  | Iamax _ _ _ _ _ | Iamin _ _ _ _ _ => true
  | _ => false
  end.

(** The buffers a native call receives as device pointers, in order. *)
Definition device_pointers (args : list arg) : list buffer :=
  omap (λ a, match a with ADev p => Some p | _ => None end) args.

(** The interop task of every launcher: the scope object, the handle, the
    switch to device pointer mode for the routines that make it, the native
    call. *)
Definition launch_task (switch : bool) (func : native_routine) (q : queue)
    (args : list arg) : Task unit :=
  sc <- CublasScopedContextHandler q ;;
  handle <- get_handle sc q ;;
  (if switch then cublasSetPointerMode handle CUBLAS_POINTER_MODE_DEVICE
   else se_ret tt) ;;;
  CUBLAS_ERROR_FUNC func handle args.

(** [c] keeps the relation [R] between the runtime before and after,
    provided the pending tasks satisfy [T]; it only enqueues such tasks. *)
Definition host_ok (T : Task unit → Prop) (R : runtime → runtime → Prop)
    {A} (c : Host A) : Prop :=
  ∀ rt, Forall T (pending rt) → R rt (c rt).2 ∧ Forall T (pending (c rt).2).

(** From [d] to [d'] no cached handle was dropped or replaced, and the
    creations logged still match the cache. *)
Definition cache_grows (d d' : device) : Prop :=
  (∀ ctx h, handles d !! ctx = Some h → handles d' !! ctx = Some h) ∧
  (cache_consistent d → cache_consistent d').

(** submissions logged, minus native calls logged, minus command groups
    still pending *)
Definition slack (rt : runtime) : Z :=
  Z.of_nat (length (submits (trace (dev rt))))
  - Z.of_nat (length (native_calls (trace (dev rt))))
  - Z.of_nat (length (pending rt)).

(** between [d] and [d'] at most [k] native calls and no submission were logged *)
Definition calls_at_most (k : nat) (d d' : device) : Prop :=
  (length (native_calls (trace d')) ≤ length (native_calls (trace d)) + k)%nat ∧
  length (submits (trace d')) = length (submits (trace d)).

(** every handle has in [d'] the pointer mode it has in [d] *)
Definition same_modes (d d' : device) : Prop := ∀ h, mode_of d' h = mode_of d h.

(** a queue on a device without cuBLAS *)
Definition no_backend_queue : queue := Queue false None.

Definition cublasSrotmg : native_routine := Native "cublasSrotmg" stub_run.

(** * Properties *)

(** ** Symbolic execution of a routine *)

Lemma mode_of_switched m hs pm tr h md :
  mode_of (Device m hs (<[h := md]> pm) tr) h = md.
Proof. unfold mode_of. simpl. by rewrite lookup_insert_eq. Qed.

Ltac unfold_model :=
  unfold run_call, asum, scal, axpy, rotg, rotm, copy, dot, rot, sdsdot,
    dot_float_double, rotmg, iamax, swap, iamin, nrm2, cublasSdot, native_of,
    fits_dims, count_and_strides, se_bind, se_ret, raise, overflow_check, submit,
    wait, with_buffer, new_buffer, destroy_buffer, host_access, host_read,
    host_write, CublasScopedContextHandler, get_handle, cublasSetPointerMode,
    CUBLAS_ERROR_FUNC, get_mem, log, set_memory in *;
  cbn [fst snd dev pending memory handles pointer_modes trace fn_name fn_run
       app drain] in *;
  rewrite ?mode_of_switched in *.

(** Runs the routine in the goal, splitting on every test it makes. *)
Ltac exec :=
  unfold_model;
  repeat (first [ progress simplify_eq
                | match goal with
                  | H : ?x = _ |- context [match ?x with _ => _ end] => rewrite H
                  end
                | case_match ];
          unfold_model).

(** The same, using what the context says about the native call and the
    memory it leaves. *)
Ltac exec_facts :=
  unfold_model;
  repeat (first [ progress simplify_eq
                | match goal with
                  | H1 : ?x = _, H2 : ?x = _ |- _ => rewrite H1 in H2
                  | H1 : ?m !! ?k = _, H2 : context [?m !! ?k ≫= _] |- _ =>
                      rewrite H1 in H2; simpl in H2
                  end
                | match goal with
                  | H : ?x = _ |- context [match ?x with _ => _ end] => rewrite H
                  end
                | case_match ];
          unfold_model).

Ltac flatten_trace :=
  rewrite ?mode_of_switched; rewrite <- ?app_assoc; cbn [app].

(** closes an execution lemma once the final runtime is explicit *)
Ltac give_trace :=
  first
    [ eexists _, [_], _; split_and!; [reflexivity | done | done | reflexivity]
    | eexists _, [_; _], _; split_and!; [reflexivity | done | done | reflexivity] ].

Lemma native_calls_host_access post :
  Forall is_host_access post → native_calls post = [].
Proof. induction 1 as [|[] ? []]; simpl; auto. Qed.

Lemma submits_host_access post :
  Forall is_host_access post → submits post = [].
Proof. induction 1 as [|[] ? []]; simpl; auto. Qed.

Lemma native_args_app evs1 evs2 :
  native_args (evs1 ++ evs2) = native_args evs1 ++ native_args evs2.
Proof. apply omap_app. Qed.


Lemma scalar_result_switches c : scalar_result c = true → switches c = true.
Proof. by destruct c. Qed.

Lemma host_scalar_no_switch c : host_scalar c = true → switches c = false.
Proof. by destruct c. Qed.

(** ** Overflow faults come from [overflow_check] alone *)

Lemma quiet_bind {A B} (c : Host A) (k : A → Host B) :
  quiet c → (∀ a, quiet (k a)) → quiet (se_bind c k).
Proof.
  intros Hc Hk rt. unfold se_bind. specialize (Hc rt).
  destruct (c rt) as [[a|e] rt']; simpl in *; [apply Hk | done].
Qed.

Lemma quiet_submit q cg : quiet (submit q cg).
Proof. done. Qed.

Lemma quiet_wait : quiet wait.
Proof. intros rt. unfold wait. by destruct (drain _ _) as [[[]] ?]. Qed.

Lemma quiet_new_buffer cells : quiet (new_buffer cells).
Proof. done. Qed.

Lemma quiet_destroy_buffer b : quiet (destroy_buffer b).
Proof. done. Qed.

Lemma quiet_with_buffer {A} cells (body : buffer → Host A) :
  (∀ b, quiet (body b)) → quiet (with_buffer cells body).
Proof.
  intros H rt. unfold with_buffer, new_buffer. cbn [fst snd].
  match goal with |- context [body ?b ?rt1] =>
    specialize (H b rt1); by destruct (body b rt1) end.
Qed.

Lemma quiet_host_access b m : quiet (host_access b m).
Proof. apply quiet_bind; [apply quiet_wait | done]. Qed.

Lemma quiet_host_read acc i : quiet (host_read acc i).
Proof. intros rt. unfold host_read. by destruct (_ ≫= _). Qed.

Lemma quiet_host_write acc i v : quiet (host_write acc i v).
Proof. intros rt. unfold host_write. simpl. repeat case_match; done. Qed.

Lemma quiet_invalid {A} : quiet (raise (A := A) InvalidAccess).
Proof. done. Qed.

Create HintDb quiet.
#[local] Hint Resolve quiet_submit quiet_wait quiet_new_buffer quiet_destroy_buffer
  quiet_host_access quiet_host_read quiet_host_write quiet_invalid : quiet.

Ltac quiet_tac :=
  repeat first
    [ solve [auto with quiet]
    | match goal with |- quiet (match ?v with _ => _ end) => destruct v end
    | apply quiet_with_buffer; intros ?
    | apply quiet_bind; [| intros ?] ].

Lemma overflow_check_fits n strides {A} (k : Host A) rt :
  fits_native (n * max_abs strides) = true →
  (overflow_check n strides ;;; k) rt = k rt.
Proof. intros H. unfold se_bind, overflow_check. by rewrite H. Qed.

Lemma overflow_check_overflows n strides {A} (k : Host A) rt :
  fits_native (n * max_abs strides) = false →
  (overflow_check n strides ;;; k) rt = (Raise OverflowError, rt).
Proof. intros H. unfold se_bind, overflow_check. by rewrite H. Qed.


(** ** The pointer mode only ever moves to device *)

Lemma stays_device_refl d : stays_device d d.
Proof. split; [done|]. exists []. by rewrite app_nil_r. Qed.

Lemma stays_device_trans d1 d2 d3 :
  stays_device d1 d2 → stays_device d2 d3 → stays_device d1 d3.
Proof.
  intros [H1 (e1 & T1 & F1)] [H2 (e2 & T2 & F2)]. split; [auto|].
  exists (e1 ++ e2). rewrite T2, T1, app_assoc. split; [done|]. by apply Forall_app.
Qed.

Lemma stays_device_log e d : mode_event_ok e → stays_device d (log e d).
Proof. intros He. split; [done|]. exists [e]. split; [done|]. by constructor. Qed.

Lemma stays_device_set_memory m d : stays_device d (set_memory m d).
Proof. split; [done|]. exists []. by rewrite app_nil_r. Qed.

Lemma task_keeps_ret {A} (a : A) : task_keeps (se_ret a : Task A).
Proof. intros d. apply stays_device_refl. Qed.

Lemma task_keeps_bind {A B} (t : Task A) (k : A → Task B) :
  task_keeps t → (∀ a, task_keeps (k a)) → task_keeps (se_bind t k).
Proof.
  intros Ht Hk d. unfold se_bind. specialize (Ht d).
  destruct (t d) as [[a|e] d']; simpl in *; [|done].
  eapply stays_device_trans; [done | apply Hk].
Qed.

(** A handle in device mode is not the one about to be created. *)
Lemma task_keeps_get_handle sc q : task_keeps (get_handle sc q).
Proof.
  intros d. unfold get_handle.
  destruct (q_backend q); [|apply stays_device_refl].
  destruct (q_context q) as [c|]; [|apply stays_device_refl].
  destruct (handles d !! c); [apply stays_device_refl|]. simpl.
  split.
  - intros h Hh. unfold mode_of in *. simpl.
    destruct (decide (h = fresh (dom (pointer_modes d) ∪ map_img (handles d))))
      as [->|Hne].
    + pose proof (is_fresh (dom (pointer_modes d) ∪ map_img (handles d))) as Hfresh.
      apply not_elem_of_union in Hfresh as [Hfresh _].
      rewrite not_elem_of_dom in Hfresh. by rewrite Hfresh in Hh.
    + by rewrite lookup_insert_ne.
  - eexists [_]. split; [done|]. by constructor.
Qed.

Lemma task_keeps_switch h :
  task_keeps (cublasSetPointerMode h CUBLAS_POINTER_MODE_DEVICE).
Proof.
  intros d. split.
  - intros h' Hh'. unfold mode_of in *. simpl.
    destruct (decide (h' = h)) as [->|Hne];
      [by rewrite lookup_insert_eq | by rewrite lookup_insert_ne].
  - eexists [_]. split; [done|]. by constructor.
Qed.

Lemma task_keeps_native func h args : task_keeps (CUBLAS_ERROR_FUNC func h args).
Proof.
  intros d. unfold CUBLAS_ERROR_FUNC.
  destruct (fn_run _ _ _ _) as [err mem'].
  assert (stays_device d (log (EvNativeCall (fn_name func) h (mode_of d h) args err)
                              (set_memory mem' d))).
  { eapply stays_device_trans; [apply stays_device_set_memory|].
    by apply stays_device_log. }
  by destruct (decide _).
Qed.

Lemma drain_keeps ts d :
  Forall task_keeps ts →
  stays_device d (drain ts d).1.2 ∧ Forall task_keeps (drain ts d).2.
Proof.
  intros Hts. revert d. induction Hts as [|t ts Ht Hts IH]; intros d; simpl.
  - split; [apply stays_device_refl | done].
  - specialize (Ht d). destruct (t d) as [[[]|f] d']; simpl in *.
    + destruct (IH d') as [H1 H2]. split; [|done].
      by eapply stays_device_trans.
    + done.
Qed.

Lemma host_keeps_bind {A B} (c : Host A) (k : A → Host B) :
  host_keeps c → (∀ a, host_keeps (k a)) → host_keeps (se_bind c k).
Proof.
  intros Hc Hk rt Hrt. unfold se_bind. destruct (Hc rt Hrt) as [H1 H2].
  destruct (c rt) as [[a|e] rt']; simpl in *; [|done].
  destruct (Hk a rt' H2) as [H3 H4]. split; [|done].
  by eapply stays_device_trans.
Qed.

Lemma host_keeps_submit q reqs t : task_keeps t → host_keeps (submit q (reqs, t)).
Proof.
  intros Ht rt Hrt. simpl. split; [by apply stays_device_log|].
  apply Forall_app. split; [done | by constructor].
Qed.

Lemma host_keeps_wait : host_keeps wait.
Proof.
  intros rt Hrt. unfold wait.
  destruct (drain_keeps (pending rt) (dev rt) Hrt) as [H1 H2].
  by destruct (drain _ _) as [[[[]|f] d] ts].
Qed.

Lemma host_keeps_ret {A} (a : A) : host_keeps (se_ret a : Host A).
Proof. intros rt Hrt. split; [apply stays_device_refl | done]. Qed.

Lemma host_keeps_raise {A} f : host_keeps (raise f : Host A).
Proof. intros rt Hrt. split; [apply stays_device_refl | done]. Qed.

Lemma host_keeps_overflow_check n strides : host_keeps (overflow_check n strides).
Proof.
  intros rt Hrt. unfold overflow_check.
  destruct (fits_native _); (split; [apply stays_device_refl | done]).
Qed.

Lemma host_keeps_new_buffer cells : host_keeps (new_buffer cells).
Proof. intros rt Hrt. split; [apply stays_device_set_memory | done]. Qed.

Lemma host_keeps_destroy_buffer b : host_keeps (destroy_buffer b).
Proof. intros rt Hrt. split; [apply stays_device_set_memory | done]. Qed.

Lemma host_keeps_with_buffer {A} cells (body : buffer → Host A) :
  (∀ b, host_keeps (body b)) → host_keeps (with_buffer cells body).
Proof.
  intros H rt Hrt. unfold with_buffer, new_buffer, destroy_buffer. cbn [fst snd].
  match goal with |- context [body ?b ?rt1] =>
    destruct (H b rt1 Hrt) as [H1 H2]; destruct (body b rt1) as [r rt2] end.
  simpl in *. split; [|done].
  eapply stays_device_trans; [apply stays_device_set_memory|].
  eapply stays_device_trans; [apply H1 | apply stays_device_set_memory].
Qed.

Lemma host_keeps_host_access b m : host_keeps (host_access b m).
Proof.
  apply host_keeps_bind; [apply host_keeps_wait|].
  intros _ rt Hrt. split; [by apply stays_device_log | done].
Qed.

Lemma host_keeps_host_read acc i : host_keeps (host_read acc i).
Proof.
  intros rt Hrt. unfold host_read.
  destruct (_ ≫= _); (split; [apply stays_device_refl | done]).
Qed.

Lemma host_keeps_host_write acc i v : host_keeps (host_write acc i v).
Proof.
  intros rt Hrt. unfold host_write. simpl.
  repeat case_match; simpl;
    (split; [first [apply stays_device_refl | apply stays_device_set_memory] | done]).
Qed.

Create HintDb keeps.
#[local] Hint Resolve task_keeps_ret task_keeps_get_handle task_keeps_switch
  task_keeps_native host_keeps_wait host_keeps_ret host_keeps_raise
  host_keeps_overflow_check host_keeps_new_buffer host_keeps_destroy_buffer
  host_keeps_host_access host_keeps_host_read host_keeps_host_write : keeps.

Ltac keeps_tac :=
  repeat first
    [ solve [auto with keeps]
    | match goal with
      | |- host_keeps (match ?v with _ => _ end) => destruct v
      | |- host_keeps (submit _ _) => apply host_keeps_submit
      | |- host_keeps (with_buffer _ _) => apply host_keeps_with_buffer; intros ?
      | |- task_keeps (se_bind _ _) => apply task_keeps_bind; [| intros ?]
      | |- host_keeps (se_bind _ _) => apply host_keeps_bind; [| intros ?]
      end ].

(** ** The handle cache *)

Lemma creations_app ctx evs1 evs2 :
  creations ctx (evs1 ++ evs2) = (creations ctx evs1 + creations ctx evs2)%nat.
Proof.
  induction evs1 as [|[] evs1 IH]; simpl; auto. rewrite IH. lia.
Qed.

Lemma get_handle_consistent sc q d :
  cache_consistent d → cache_consistent (get_handle sc q d).2.
Proof.
  intros Hd. unfold get_handle.
  destruct (q_backend q); [|done].
  destruct (q_context q) as [c|]; [|done].
  destruct (handles d !! c) eqn:Hc; [done|]. simpl.
  intros ctx. simpl. rewrite creations_app, (Hd ctx). simpl.
  destruct (decide (c = ctx)) as [->|Hne].
  - by rewrite Hc, lookup_insert_eq.
  - rewrite lookup_insert_ne by done. destruct (handles d !! ctx); lia.
Qed.

(** ** Index conversion *)

Lemma zero_based_int i : is_int i → zero_based i = Z.max (i - 1) 0.
Proof.
  unfold is_int, zero_based, int64_sub, int64_wrap. intros Hi.
  f_equal. rewrite Z.mod_small; lia.
Qed.



Lemma fresh_buffer_ne (m : gmap buffer (list val)) b :
  is_Some (m !! b) → b ≠ fresh (dom m).
Proof.
  intros Hb ->. apply (is_fresh (dom m)). by apply elem_of_dom.
Qed.


(** ** The launchers *)

Section Level1_properties.

Variable cublasSdot_run :
  cublasPointerMode_t → list arg → gmap buffer (list val) →
  cublasStatus_t * gmap buffer (list val).

(** C1.  Every level-1 routine that takes a count and strides checks
    [n * max |stride|] against the native integer width first: when the
    product does not fit, the routine raises [OverflowError] and leaves the
    runtime as it found it (nothing submitted, nothing logged, device
    memory untouched); when it fits, the routine never raises
    [OverflowError]. *)
Theorem overflow_fault_iff_product_overflows q c rt :
  match count_and_strides c with
  | Some (n, strides) =>
      if fits_native (n * max_abs strides)
      then is_overflow (run_call cublasSdot_run q c rt).1 = false
      else run_call cublasSdot_run q c rt = (Raise OverflowError, rt)
  | None => True
  end.
Proof.
  destruct c; simpl; try done;
    (destruct (fits_native _) eqn:Hfit;
     [ match goal with
       | |- is_overflow (?f _).1 = false => unfold f
       | |- is_overflow (?f _ _).1 = false => unfold f
       | |- is_overflow (?f _ _ _).1 = false => unfold f
       | |- is_overflow (?f _ _ _ _).1 = false => unfold f
       | |- is_overflow (?f _ _ _ _ _).1 = false => unfold f
       | |- is_overflow (?f _ _ _ _ _ _).1 = false => unfold f
       | |- is_overflow (?f _ _ _ _ _ _ _).1 = false => unfold f
       | |- is_overflow (?f _ _ _ _ _ _ _ _).1 = false => unfold f
       | |- is_overflow (?f _ _ _ _ _ _ _ _ _).1 = false => unfold f
       | |- is_overflow (?f _ _ _ _ _ _ _ _ _ _).1 = false => unfold f
       end;
       rewrite overflow_check_fits by done;
       match goal with
       | |- is_overflow (?k rt).1 = false => cut (quiet k); [intros Hq; apply Hq |]
       end;
       quiet_tac
     | by apply overflow_check_overflows ]).
Qed.

(** What any of the fifteen routines does when run to completion on a
    queue with a backend, from a runtime with no outstanding work: one
    submission, the handle of the context (created if it was not cached),
    the switch to device pointer mode for the routines that make it, one
    native call, then host accesses only. *)
Lemma run_to_completion q c d ctx :
  q_backend q = true → q_context q = Some ctx → fits_dims c = true →
  ∃ h reqs args err post,
    let '(r, rt') := (run_call cublasSdot_run q c ;;; wait) (Runtime d []) in
    let m := if switches c then CUBLAS_POINTER_MODE_DEVICE
             else match handles d !! ctx with
                  | Some _ => mode_of d h
                  | None => CUBLAS_POINTER_MODE_HOST
                  end in
    trace (dev rt') =
      trace d ++ EvSubmit reqs
        :: match handles d !! ctx with
           | Some _ => []
           | None => [EvCreateHandle ctx h]
           end
        ++ (if switches c then [EvSetPointerMode h CUBLAS_POINTER_MODE_DEVICE] else [])
        ++ EvNativeCall (fn_name (native_of cublasSdot_run c)) h m args err :: post ∧
    Forall is_host_access post ∧
    pending rt' = [] ∧
    handles (dev rt') = <[ctx := h]> (handles d) ∧
    (∀ h0, handles d !! ctx = Some h0 → h0 = h) ∧
    pointer_modes (dev rt') =
      (if switches c then <[h := CUBLAS_POINTER_MODE_DEVICE]> else id)
        (match handles d !! ctx with
         | Some _ => pointer_modes d
         | None => <[h := CUBLAS_POINTER_MODE_HOST]> (pointer_modes d)
         end) ∧
    (err ≠ CUBLAS_STATUS_SUCCESS →
       r = Raise (DeviceFault
                    (NativeCallFailure (fn_name (native_of cublasSdot_run c)) err))) ∧
    (err = CUBLAS_STATUS_SUCCESS → ∀ f, r ≠ Raise (DeviceFault f)) ∧
    (switches c = false → post = []).
Proof.
  intros Hb Hc Hfit. destruct c.
  all: exec; flatten_trace.
  all: eexists _, _, _, _, _.
  all: repeat match goal with
         | H : handles _ !! _ = _ |- _ => rewrite !H
         end; cbn [switches app id].
  all: split_and!;
       [ reflexivity | repeat constructor | done
       | first [done | symmetry; by apply insert_id] | intros; congruence | done
       | intros; congruence | intros; congruence | intros; done ].
Qed.

Lemma host_keeps_run_call q c : host_keeps (run_call cublasSdot_run q c).
Proof.
  destruct c; simpl;
    unfold asum, scal, axpy, rotg, rotm, copy, dot, rot, sdsdot, dot_float_double,
      rotmg, iamax, swap, iamin, nrm2, CublasScopedContextHandler;
    keeps_tac.
Qed.

Lemma host_keeps_run_calls qcs : host_keeps (run_calls (run_call cublasSdot_run) qcs).
Proof.
  induction qcs as [|[q c] qcs IH]; simpl.
  - apply host_keeps_ret.
  - apply host_keeps_bind; [apply host_keeps_run_call | done].
Qed.


Lemma sdsdot_exec q ctx d n sb x incx y incy result m1 r rest :
  q_backend q = true → q_context q = Some ctx →
  fits_native (n * max_abs [incx; incy]) = true →
  cublasSdot_run CUBLAS_POINTER_MODE_DEVICE
    [AInt (to_int n); ADev x; AInt (to_int incx); ADev y; AInt (to_int incy);
     ADev result] (memory d)
    = (CUBLAS_STATUS_SUCCESS, m1) →
  m1 !! result = Some (VFloat r :: rest) →
  ∃ h pre rt',
    sdsdot cublasSdot_run q n sb x incx y incy result (Runtime d []) = (Ok tt, rt') ∧
    pending rt' = [] ∧
    memory (dev rt') = <[result := VFloat (float_add r sb) :: rest]> m1 ∧
    trace (dev rt') =
      trace d ++ pre
        ++ [EvSetPointerMode h CUBLAS_POINTER_MODE_DEVICE;
            EvNativeCall "cublasSdot" h CUBLAS_POINTER_MODE_DEVICE
              [AInt (to_int n); ADev x; AInt (to_int incx); ADev y;
               AInt (to_int incy); ADev result]
              CUBLAS_STATUS_SUCCESS;
            EvHostAccess result read_write].
Proof.
  intros Hb Hc Hfit Hrun Hresult.
  exec_facts; try done; try (simpl in *; lia).
  all: flatten_trace; give_trace.
Qed.

Lemma dot_float_double_exec q ctx d n x incx y incy result m1 f r1 cells :
  q_backend q = true → q_context q = Some ctx →
  fits_native (n * max_abs [incx; incy]) = true →
  cublasSdot_run CUBLAS_POINTER_MODE_DEVICE
    [AInt (to_int n); ADev x; AInt (to_int incx); ADev y; AInt (to_int incy);
     ADev (fresh (dom (memory d)))]
    (<[fresh (dom (memory d)) := [VUninit]]> (memory d))
    = (CUBLAS_STATUS_SUCCESS, m1) →
  m1 !! fresh (dom (memory d)) ≫= (λ cells, cells !! 0%nat) = Some (VFloat f) →
  m1 !! result = Some (r1 :: cells) →
  ∃ h pre rt',
    dot_float_double cublasSdot_run q n x incx y incy result (Runtime d [])
      = (Ok tt, rt') ∧
    pending rt' = [] ∧
    memory (dev rt') =
      delete (fresh (dom (memory d)))
        (<[result := VDouble (double_of_float f) :: cells]> m1) ∧
    trace (dev rt') =
      trace d ++ pre
        ++ [EvSetPointerMode h CUBLAS_POINTER_MODE_DEVICE;
            EvNativeCall "cublasSdot" h CUBLAS_POINTER_MODE_DEVICE
              [AInt (to_int n); ADev x; AInt (to_int incx); ADev y; AInt (to_int incy);
               ADev (fresh (dom (memory d)))]
              CUBLAS_STATUS_SUCCESS;
            EvHostAccess (fresh (dom (memory d))) read;
            EvHostAccess result discard_write].
Proof.
  intros Hb Hc Hfit Hrun Hscratch Hresult.
  exec_facts; try done; try (simpl in *; lia).
  all: flatten_trace; give_trace.
Qed.




(** C7.  A routine run to completion on a queue with a cuBLAS backend
    submits one command group and makes one native call; the status of
    that call is logged with the routine's name, a status other than
    success becomes the fault [NativeCallFailure name status] of the
    operation, and there is no second call. *)
Theorem one_native_call_per_invocation q c d ctx :
  q_backend q = true → q_context q = Some ctx → fits_dims c = true →
  ∃ evs err,
    let '(r, rt') := (run_call cublasSdot_run q c ;;; wait) (Runtime d []) in
    trace (dev rt') = trace d ++ evs ∧
    length (submits evs) = 1%nat ∧
    native_calls evs = [(fn_name (native_of cublasSdot_run c), err)] ∧
    (err ≠ CUBLAS_STATUS_SUCCESS →
       r = Raise (DeviceFault
                    (NativeCallFailure (fn_name (native_of cublasSdot_run c)) err))) ∧
    (err = CUBLAS_STATUS_SUCCESS → ∀ f, r ≠ Raise (DeviceFault f)).
Proof.
  intros Hb Hc Hfit.
  destruct (run_to_completion q c d ctx Hb Hc Hfit)
    as (h & reqs & args & err & post & H).
  destruct ((run_call cublasSdot_run q c ;;; wait) (Runtime d [])) as [r rt'].
  destruct H as (Htr & Hpost & _ & _ & _ & _ & Hfail & Hok & _).
  eexists _, err. split; [exact Htr|].
  split_and!; [| | done | done].
  - destruct (handles d !! ctx), (switches c); simpl;
      by rewrite submits_host_access.
  - destruct (handles d !! ctx), (switches c); simpl;
      by rewrite native_calls_host_access.
Qed.

(** C9.  Whatever sequence of level-1 routines runs, no handle that is in
    device pointer mode leaves it and no switch to host pointer mode is
    ever made.  [scal], [axpy] and [rot] make no switch of their own: once
    a scalar-result routine has run on a queue of the same context, their
    native call, which takes host scalars, is made on the cached handle
    in device pointer mode. *)
Theorem pointer_mode_never_set_back_to_host :
  (∀ qcs d,
     let d' := dev ((run_calls (run_call cublasSdot_run) qcs ;;; wait) (Runtime d [])).2 in
     (∀ h, mode_of d h = CUBLAS_POINTER_MODE_DEVICE →
           mode_of d' h = CUBLAS_POINTER_MODE_DEVICE) ∧
     ∃ evs, trace d' = trace d ++ evs ∧
            ∀ h, EvSetPointerMode h CUBLAS_POINTER_MODE_HOST ∉ evs) ∧
  (∀ q1 q2 c1 c2 d ctx,
     q_backend q1 = true → q_context q1 = Some ctx →
     q_backend q2 = true → q_context q2 = Some ctx →
     fits_dims c1 = true → fits_dims c2 = true →
     scalar_result c1 = true → host_scalar c2 = true →
     let rt1 := ((run_call cublasSdot_run q1 c1 ;;; wait) (Runtime d [])).2 in
     let rt2 := ((run_call cublasSdot_run q2 c2 ;;; wait) rt1).2 in
     ∃ h reqs args err,
       handles (dev rt1) !! ctx = Some h ∧
       mode_of (dev rt1) h = CUBLAS_POINTER_MODE_DEVICE ∧
       trace (dev rt2) =
         trace (dev rt1)
           ++ [EvSubmit reqs;
               EvNativeCall (fn_name (native_of cublasSdot_run c2)) h
                 CUBLAS_POINTER_MODE_DEVICE args err] ∧
       mode_of (dev rt2) h = CUBLAS_POINTER_MODE_DEVICE).
Proof.
  split.
  - intros qcs d d'.
    assert (host_keeps (run_calls (run_call cublasSdot_run) qcs ;;; wait)) as Hk.
    { apply host_keeps_bind; [apply host_keeps_run_calls | intros; apply host_keeps_wait]. }
    destruct (Hk (Runtime d []) (Forall_nil_2 _)) as [[Hm (evs & Htr & Hev)] _].
    split; [exact Hm|]. exists evs. split; [exact Htr|].
    intros h Hin. rewrite Forall_forall in Hev. exact (Hev _ Hin).
  - intros q1 q2 c1 c2 d ctx Hb1 Hc1 Hb2 Hc2 Hf1 Hf2 Hs1 Hs2 rt1 rt2.
    destruct (run_to_completion q1 c1 d ctx Hb1 Hc1 Hf1)
      as (h & reqs1 & args1 & err1 & post1 & H1).
    subst rt2 rt1.
    destruct ((run_call cublasSdot_run q1 c1 ;;; wait) (Runtime d [])) as [r1 [d1 p1]].
    rewrite (scalar_result_switches c1 Hs1) in H1.
    destruct H1 as (_ & _ & Hp1 & Hh1 & _ & Hpm1 & _). simpl in *. subst p1.
    assert (handles d1 !! ctx = Some h) as Hcached.
    { rewrite Hh1. apply lookup_insert_eq. }
    assert (mode_of d1 h = CUBLAS_POINTER_MODE_DEVICE) as Hmode.
    { unfold mode_of. rewrite Hpm1. by rewrite lookup_insert_eq. }
    destruct (run_to_completion q2 c2 d1 ctx Hb2 Hc2 Hf2)
      as (h2 & reqs2 & args2 & err2 & post2 & H2).
    destruct ((run_call cublasSdot_run q2 c2 ;;; wait) (Runtime d1 [])) as [r2 [d2 p2]].
    rewrite (host_scalar_no_switch c2 Hs2), Hcached in H2.
    destruct H2 as (Htr2 & _ & _ & _ & Hsame & Hpm2 & _ & _ & Hpost2). simpl in *.
    specialize (Hsame h eq_refl). subst h2. rewrite (Hpost2 eq_refl) in Htr2.
    exists h, reqs2, args2, err2. split_and!; [done | done | |].
    + by rewrite Htr2, Hmode.
    + unfold mode_of in *. by rewrite Hpm2.
Qed.


End Level1_properties.

(** ** The two emulated routines *)

(** C4.  [sdsdot] has cuBLAS compute the single-precision dot product into
    the caller's result buffer, in device pointer mode; the host accessor
    it then takes on the result waits for that task (nothing is left
    pending), and the routine adds [sb] to the first cell, reading and
    writing it on the host.  With x = [1, 2, 3], y = [4, 5, 6], unit
    strides and sb = 0.5 the result is 32.5 = 65 * 2^-1. *)
Theorem sdsdot_adds_host_scalar :
  (∀ cublasSdot_run q ctx d n sb x incx y incy result m1 r rest,
     q_backend q = true → q_context q = Some ctx →
     fits_native (n * max_abs [incx; incy]) = true →
     cublasSdot_run CUBLAS_POINTER_MODE_DEVICE
       [AInt (to_int n); ADev x; AInt (to_int incx); ADev y; AInt (to_int incy);
        ADev result] (memory d)
       = (CUBLAS_STATUS_SUCCESS, m1) →
     m1 !! result = Some (VFloat r :: rest) →
     ∃ h pre rt',
       sdsdot cublasSdot_run q n sb x incx y incy result (Runtime d []) = (Ok tt, rt') ∧
       pending rt' = [] ∧
       memory (dev rt') = <[result := VFloat (float_add r sb) :: rest]> m1 ∧
       trace (dev rt') =
         trace d ++ pre
           ++ [EvSetPointerMode h CUBLAS_POINTER_MODE_DEVICE;
               EvNativeCall "cublasSdot" h CUBLAS_POINTER_MODE_DEVICE
                 [AInt (to_int n); ADev x; AInt (to_int incx); ADev y;
                  AInt (to_int incy); ADev result]
                 CUBLAS_STATUS_SUCCESS;
               EvHostAccess result read_write]) ∧
  (let '(r, rt') := sdsdot ref_sdot_run cuda_queue 3 (f32 1 (-1)) 0%nat 1 1%nat 1 2%nat
                      (Runtime cold_device []) in
   r = Ok tt ∧ memory (dev rt') !! 2%nat = Some [VFloat (f32 65 (-1))]).
Proof.
  split.
  - intros. by eapply sdsdot_exec.
  - by vm_compute.
Qed.

(** C5.  The overload of [dot] with a [double] result has cuBLAS compute
    the single-precision dot product into a fresh one-cell [float]
    scratch buffer, reads that cell on the host, and writes its
    conversion to [double] into the first cell of the caller's result
    buffer: the result is the widened single-precision value.  With
    x = [1, 2, 3] and y = [4, 5, 6] it is 32. *)
Theorem dot_float_double_widens_single_result :
  (∀ cublasSdot_run q ctx d n x incx y incy result m1 f r1 cells,
     q_backend q = true → q_context q = Some ctx →
     fits_native (n * max_abs [incx; incy]) = true →
     let scratch := fresh (dom (memory d)) in
     let args := [AInt (to_int n); ADev x; AInt (to_int incx); ADev y;
                  AInt (to_int incy); ADev scratch] in
     cublasSdot_run CUBLAS_POINTER_MODE_DEVICE args (<[scratch := [VUninit]]> (memory d))
       = (CUBLAS_STATUS_SUCCESS, m1) →
     m1 !! scratch ≫= (λ l, l !! 0%nat) = Some (VFloat f) →
     m1 !! result = Some (r1 :: cells) →
     ∃ h pre rt',
       dot_float_double cublasSdot_run q n x incx y incy result (Runtime d [])
         = (Ok tt, rt') ∧
       pending rt' = [] ∧
       memory (dev rt') =
         delete scratch (<[result := VDouble (double_of_float f) :: cells]> m1) ∧
       trace (dev rt') =
         trace d ++ pre
           ++ [EvSetPointerMode h CUBLAS_POINTER_MODE_DEVICE;
               EvNativeCall "cublasSdot" h CUBLAS_POINTER_MODE_DEVICE args
                 CUBLAS_STATUS_SUCCESS;
               EvHostAccess scratch read;
               EvHostAccess result discard_write]) ∧
  (let '(r, rt') := dot_float_double ref_sdot_run cuda_queue 3 0%nat 1 1%nat 1 3%nat
                      (Runtime cold_device []) in
   r = Ok tt ∧ memory (dev rt') !! 3%nat = Some [VDouble (f64 32 0)]).
Proof.
  split.
  - intros. by eapply dot_float_double_exec.
  - by vm_compute.
Qed.

(** ** The handle cache *)

(** C8.  Acquiring a handle for a queue whose native context already has
    one returns that same handle and changes nothing: no handle is
    created, the cache and the trace are as they were.  Over any series
    of acquisitions, each context has at most one handle created for
    it. *)
Theorem handle_created_once_per_context :
  (∀ sc1 sc2 q1 q2 d h d1,
     q_context q1 = q_context q2 → q_backend q2 = true →
     get_handle sc1 q1 d = (Ok h, d1) →
     get_handle sc2 q2 d1 = (Ok h, d1)) ∧
  (∀ qs d,
     cache_consistent d →
     cache_consistent (acquire_each qs d) ∧
     ∀ ctx, (creations ctx (trace (acquire_each qs d)) ≤ 1)%nat).
Proof.
  split.
  - intros sc1 sc2 q1 q2 d h d1 Hctx Hb2. unfold get_handle. rewrite Hb2, <- Hctx.
    destruct (q_backend q1); [|done].
    destruct (q_context q1) as [c|]; [|done].
    destruct (handles d !! c) eqn:Hc; intros; simplify_eq; simpl.
    + by rewrite Hc.
    + by rewrite lookup_insert_eq.
  - intros qs d Hd.
    assert (cache_consistent (acquire_each qs d)) as H.
    { revert d Hd. induction qs as [|q qs IH]; intros d Hd; [done|].
      simpl. apply IH. by apply get_handle_consistent. }
    split; [done|]. intros ctx. rewrite (H ctx).
    destruct (handles _ !! ctx); lia.
Qed.

(** ** Instances *)




Example copy_count_beyond_int_is_converted :
  issued (copy cublasScopy cuda_queue (2 ^ 32 + 2) 0%nat 0 1%nat 0) cold_device
    = [[AInt 2; ADev 0%nat; AInt 0; ADev 1%nat; AInt 0]].
Proof. reflexivity. Qed.

Example asum_count_times_stride_overflows :
  asum cublasSasum cuda_queue (2 ^ 30) 0%nat (-2) 2%nat (Runtime cold_device [])
    = (Raise OverflowError, Runtime cold_device []).
Proof. reflexivity. Qed.

Example iamax_of_1_m9_3 :
  memory (dev (iamax cublasIsamax cuda_queue 3 5%nat 1 4%nat (Runtime cold_device [])).2)
    !! 4%nat = Some [VInt64 1].
Proof. by vm_compute. Qed.

Example sdsdot_then_scal_trace :
  trace (dev ((run_calls (run_call ref_sdot_run)
                 [(cuda_queue, example_sdsdot); (cuda_queue, example_scal)] ;;; wait)
                (Runtime cold_device [])).2)
  = [EvSubmit [(0%nat, read); (1%nat, read); (2%nat, write)];
     EvCreateHandle 7%nat 0%nat;
     EvSetPointerMode 0%nat CUBLAS_POINTER_MODE_DEVICE;
     EvNativeCall "cublasSdot" 0%nat CUBLAS_POINTER_MODE_DEVICE
       [AInt 3; ADev 0%nat; AInt 1; ADev 1%nat; AInt 1; ADev 2%nat]
       CUBLAS_STATUS_SUCCESS;
     EvHostAccess 2%nat read_write;
     EvSubmit [(0%nat, read_write)];
     EvNativeCall "cublasSscal" 0%nat CUBLAS_POINTER_MODE_DEVICE
       [AInt 3; AHost (VFloat (f32 2 0)); ADev 0%nat; AInt 1]
       CUBLAS_STATUS_SUCCESS].
Proof. by vm_compute. Qed.



Lemma sdsdot_adds_host_scalar_witness :
  ∃ h pre rt',
    sdsdot ref_sdot_run cuda_queue 3 (f32 1 (-1)) 0%nat 1 1%nat 1 2%nat
      (Runtime cold_device []) = (Ok tt, rt') ∧
    pending rt' = [] ∧
    memory (dev rt') =
      <[2%nat := [VFloat (float_add (f32 32 0) (f32 1 (-1)))]]>
        (<[2%nat := [VFloat (f32 32 0)]]> example_memory) ∧
    trace (dev rt') =
      trace cold_device ++ pre
        ++ [EvSetPointerMode h CUBLAS_POINTER_MODE_DEVICE;
            EvNativeCall "cublasSdot" h CUBLAS_POINTER_MODE_DEVICE
              [AInt 3; ADev 0%nat; AInt 1; ADev 1%nat; AInt 1; ADev 2%nat]
              CUBLAS_STATUS_SUCCESS;
            EvHostAccess 2%nat read_write].
Proof.
  apply (proj1 sdsdot_adds_host_scalar ref_sdot_run cuda_queue 7%nat cold_device);
    [reflexivity | reflexivity | reflexivity | vm_compute; reflexivity
    | vm_compute; reflexivity].
Defined.

Lemma dot_float_double_widens_single_result_witness :
  let scratch := fresh (dom example_memory) in
  ∃ h pre rt',
    dot_float_double ref_sdot_run cuda_queue 3 0%nat 1 1%nat 1 3%nat
      (Runtime cold_device []) = (Ok tt, rt') ∧
    pending rt' = [] ∧
    memory (dev rt') =
      delete scratch
        (<[3%nat := [VDouble (double_of_float (f32 32 0))]]>
           (<[scratch := [VFloat (f32 32 0)]]> example_memory)) ∧
    trace (dev rt') =
      trace cold_device ++ pre
        ++ [EvSetPointerMode h CUBLAS_POINTER_MODE_DEVICE;
            EvNativeCall "cublasSdot" h CUBLAS_POINTER_MODE_DEVICE
              [AInt 3; ADev 0%nat; AInt 1; ADev 1%nat; AInt 1; ADev scratch]
              CUBLAS_STATUS_SUCCESS;
            EvHostAccess scratch read;
            EvHostAccess 3%nat discard_write].
Proof.
  apply (proj1 dot_float_double_widens_single_result ref_sdot_run cuda_queue 7%nat
           cold_device 3 0%nat 1 1%nat 1 3%nat
           (<[fresh (dom example_memory) := [VFloat (f32 32 0)]]> example_memory)
           (f32 32 0) VUninit []);
    [reflexivity | reflexivity | reflexivity | vm_compute; reflexivity
    | vm_compute; reflexivity | vm_compute; reflexivity].
Defined.


Lemma one_native_call_per_invocation_witness :
  ∃ evs err,
    let '(r, rt') := (run_call ref_sdot_run cuda_queue example_sdsdot ;;; wait)
                       (Runtime cold_device []) in
    trace (dev rt') = trace cold_device ++ evs ∧
    length (submits evs) = 1%nat ∧
    native_calls evs = [("cublasSdot", err)] ∧
    (err ≠ CUBLAS_STATUS_SUCCESS →
       r = Raise (DeviceFault (NativeCallFailure "cublasSdot" err))) ∧
    (err = CUBLAS_STATUS_SUCCESS → ∀ f, r ≠ Raise (DeviceFault f)).
Proof.
  apply (one_native_call_per_invocation ref_sdot_run cuda_queue example_sdsdot
           cold_device 7%nat); reflexivity.
Defined.

Lemma handle_created_once_per_context_witness :
  get_handle tt cuda_queue (get_handle tt cuda_queue cold_device).2
    = (Ok 0%nat, (get_handle tt cuda_queue cold_device).2).
Proof.
  apply (proj1 handle_created_once_per_context tt tt cuda_queue cuda_queue cold_device);
    [reflexivity | reflexivity | vm_compute; reflexivity].
Defined.

Lemma pointer_mode_never_set_back_to_host_witness :
  let rt1 := ((run_call ref_sdot_run cuda_queue example_sdsdot ;;; wait)
                (Runtime warm_device [])).2 in
  let rt2 := ((run_call ref_sdot_run cuda_queue example_scal ;;; wait) rt1).2 in
  ∃ h reqs args err,
    handles (dev rt1) !! 7%nat = Some h ∧
    mode_of (dev rt1) h = CUBLAS_POINTER_MODE_DEVICE ∧
    trace (dev rt2) =
      trace (dev rt1)
        ++ [EvSubmit reqs;
            EvNativeCall "cublasSscal" h CUBLAS_POINTER_MODE_DEVICE args err] ∧
    mode_of (dev rt2) h = CUBLAS_POINTER_MODE_DEVICE.
Proof.
  apply (proj2 (pointer_mode_never_set_back_to_host ref_sdot_run) cuda_queue cuda_queue
           example_sdsdot example_scal warm_device 7%nat); reflexivity.
Defined.


(** * Further properties of the launchers *)

(** ** What waits for the device *)

(** X2.  sdsdot, the float-to-double dot, rotmg, iamax and iamin are
    synchronous: when one of them returns normally to a caller whose queue
    was idle, its command group has run -- the one submission and the
    native call, which succeeded, are in the trace -- and nothing is left
    pending. *)
Theorem synchronous_routine_completes_its_group run q c d rt' :
  synchronises c = true →
  run_call run q c (Runtime d []) = (Ok tt, rt') →
  pending rt' = [] ∧
  ∃ evs, trace (dev rt') = trace d ++ evs ∧
         length (submits evs) = 1%nat ∧
         native_calls evs = [(fn_name (native_of run c), CUBLAS_STATUS_SUCCESS)].
Proof.
  intros Hs Hrun.
  destruct c; try discriminate Hs; clear Hs.
  all: exec; try done.
  all: split; [done|]; flatten_trace; eexists; split; [reflexivity|]; done.
Qed.

(** ** Invariants over sequences of routines *)

Section Invariant.

Context (T : Task unit → Prop) (R : runtime → runtime → Prop).
Hypothesis R_refl : ∀ rt, R rt rt.
Hypothesis R_trans : ∀ rt1 rt2 rt3, R rt1 rt2 → R rt2 rt3 → R rt1 rt3.
Hypothesis R_submit : ∀ reqs t rt,
  T t → R rt (Runtime (log (EvSubmit reqs) (dev rt)) (pending rt ++ [t])).
Hypothesis R_run : ∀ t ts d,
  T t → R (Runtime d (t :: ts)) (Runtime (t d).2 ts).
Hypothesis R_memory : ∀ rt m, R rt (Runtime (set_memory m (dev rt)) (pending rt)).
Hypothesis R_access : ∀ rt b m,
  R rt (Runtime (log (EvHostAccess b m) (dev rt)) (pending rt)).

Lemma host_ok_bind {A B} (c : Host A) (k : A → Host B) :
  host_ok T R c → (∀ a, host_ok T R (k a)) → host_ok T R (se_bind c k).
Proof.
  intros Hc Hk rt Hrt. unfold se_bind. destruct (Hc rt Hrt) as [H1 H2].
  destruct (c rt) as [[a|e] rt']; simpl in *; [|done].
  destruct (Hk a rt' H2) as [H3 H4]. split; [|done]. by eapply R_trans.
Qed.

Lemma host_ok_same {A} (c : Host A) : (∀ rt, (c rt).2 = rt) → host_ok T R c.
Proof. intros Hc rt Hrt. by rewrite Hc. Qed.

Lemma host_ok_ret {A} (a : A) : host_ok T R (se_ret a : Host A).
Proof. by apply host_ok_same. Qed.

Lemma host_ok_raise {A} f : host_ok T R (raise f : Host A).
Proof. by apply host_ok_same. Qed.

Lemma host_ok_overflow_check n strides : host_ok T R (overflow_check n strides).
Proof. apply host_ok_same. intros rt. unfold overflow_check. by destruct (fits_native _). Qed.

Lemma host_ok_host_read acc i : host_ok T R (host_read acc i).
Proof. apply host_ok_same. intros rt. unfold host_read. by destruct (_ ≫= _). Qed.

Lemma host_ok_submit q reqs t : T t → host_ok T R (submit q (reqs, t)).
Proof.
  intros Ht rt Hrt. simpl. split; [by apply R_submit|].
  apply Forall_app. split; [done | by constructor].
Qed.

Lemma drain_ok ts d :
  Forall T ts →
  R (Runtime d ts) (Runtime (drain ts d).1.2 (drain ts d).2) ∧
  Forall T (drain ts d).2.
Proof.
  intros Hts. revert d. induction Hts as [|t ts Ht Hts IH]; intros d; simpl.
  - done.
  - pose proof (R_run t ts d Ht) as Hstep.
    destruct (t d) as [[[]|f] d']; simpl in *.
    + destruct (IH d') as [H1 H2]. split; [|done]. by eapply R_trans.
    + done.
Qed.

Lemma host_ok_wait : host_ok T R wait.
Proof.
  intros [d ts] Hrt. unfold wait. simpl in *.
  destruct (drain_ok ts d Hrt) as [H1 H2].
  by destruct (drain ts d) as [[[[]|f] d'] ts'].
Qed.

Lemma host_ok_new_buffer cells : host_ok T R (new_buffer cells).
Proof. intros rt Hrt. split; [apply R_memory | done]. Qed.

Lemma host_ok_destroy_buffer b : host_ok T R (destroy_buffer b).
Proof. intros rt Hrt. split; [apply R_memory | done]. Qed.

Lemma host_ok_with_buffer {A} cells (body : buffer → Host A) :
  (∀ b, host_ok T R (body b)) → host_ok T R (with_buffer cells body).
Proof.
  intros H rt Hrt. unfold with_buffer.
  destruct (host_ok_new_buffer cells rt Hrt) as [H1 H2].
  destruct (new_buffer cells rt) as [[b|e] rt1]; simpl in *; [|done].
  destruct (H b rt1 H2) as [H3 H4].
  destruct (body b rt1) as [r rt2]. simpl in *. split; [|done].
  eapply R_trans; [done|]. eapply R_trans; [done | apply R_memory].
Qed.

Lemma host_ok_host_access b m : host_ok T R (host_access b m).
Proof.
  apply host_ok_bind; [apply host_ok_wait|].
  intros _ rt Hrt. split; [apply R_access | done].
Qed.

Lemma host_ok_host_write acc i v : host_ok T R (host_write acc i v).
Proof.
  intros rt Hrt. unfold host_write. simpl.
  repeat case_match; simpl; (split; [first [apply R_refl | apply R_memory] | done]).
Qed.

Ltac host_ok_tac HT :=
  repeat first
    [ apply host_ok_wait | apply host_ok_ret | apply host_ok_raise
    | apply host_ok_overflow_check | apply host_ok_new_buffer
    | apply host_ok_destroy_buffer | apply host_ok_host_access
    | apply host_ok_host_read | apply host_ok_host_write
    | match goal with
      | |- host_ok _ _ (match ?v with _ => _ end) => destruct v
      | |- host_ok _ _ (submit _ _) => apply host_ok_submit; apply HT
      | |- host_ok _ _ (with_buffer _ _) => apply host_ok_with_buffer; intros ?
      | |- host_ok _ _ (se_bind _ _) => apply host_ok_bind; [| intros ?]
      end ].

Lemma host_ok_run_call run q c :
  (∀ func args, T (launch_task (switches c) func q args)) →
  host_ok T R (run_call run q c).
Proof.
  intros HT.
  destruct c; simpl in *;
    unfold asum, scal, axpy, rotg, rotm, copy, dot, rot, sdsdot, dot_float_double,
      rotmg, iamax, swap, iamin, nrm2;
    host_ok_tac HT.
Qed.

Lemma host_ok_run_calls run qcs :
  (∀ q c func args, (q, c) ∈ qcs → T (launch_task (switches c) func q args)) →
  host_ok T R (run_calls (run_call run) qcs).
Proof.
  induction qcs as [|[q c] qcs IH]; intros HT; simpl.
  - apply host_ok_ret.
  - apply host_ok_bind.
    + apply host_ok_run_call. intros. apply HT. by left.
    + intros _. apply IH. intros. apply HT. by right.
Qed.

Lemma host_ok_completed run qcs d :
  (∀ q c func args, (q, c) ∈ qcs → T (launch_task (switches c) func q args)) →
  R (Runtime d []) ((run_calls (run_call run) qcs ;;; wait) (Runtime d [])).2.
Proof.
  intros HT.
  assert (host_ok T R (run_calls (run_call run) qcs ;;; wait)) as H.
  { apply host_ok_bind; [by apply host_ok_run_calls | intros; apply host_ok_wait]. }
  by apply H.
Qed.

End Invariant.

Lemma task_rel_bind (G : device → device → Prop) {A B} (t : Task A) (k : A → Task B) :
  (∀ d1 d2 d3, G d1 d2 → G d2 d3 → G d1 d3) →
  (∀ d, G d (t d).2) → (∀ a d, G d (k a d).2) → ∀ d, G d (se_bind t k d).2.
Proof.
  intros Htrans Ht Hk d. unfold se_bind. specialize (Ht d).
  destruct (t d) as [[a|e] d']; simpl in *; [|done].
  eapply Htrans; [done | apply Hk].
Qed.

Lemma launch_task_rel (G : device → device → Prop) sw func q args :
  (∀ d, G d d) →
  (∀ d1 d2 d3, G d1 d2 → G d2 d3 → G d1 d3) →
  (∀ sc d, G d (get_handle sc q d).2) →
  (sw = true → ∀ h d, G d (cublasSetPointerMode h CUBLAS_POINTER_MODE_DEVICE d).2) →
  (∀ h d, G d (CUBLAS_ERROR_FUNC func h args d).2) →
  ∀ d, G d (launch_task sw func q args d).2.
Proof.
  intros Hrefl Htrans Hget Hsw Hcall. unfold launch_task.
  apply task_rel_bind; [done | intros; apply Hrefl |]. intros sc.
  apply task_rel_bind; [done | apply Hget |]. intros h.
  apply task_rel_bind; [done | | intros; apply Hcall].
  destruct sw; [by apply Hsw | intros; apply Hrefl].
Qed.

(** *** The cache only grows *)

Lemma cache_grows_refl d : cache_grows d d.
Proof. done. Qed.

Lemma cache_grows_trans d1 d2 d3 :
  cache_grows d1 d2 → cache_grows d2 d3 → cache_grows d1 d3.
Proof. intros [H1 H2] [H3 H4]. split; auto. Qed.

Lemma creations_log ctx e tr :
  (∀ c h, e ≠ EvCreateHandle c h) → creations ctx (tr ++ [e]) = creations ctx tr.
Proof.
  intros He. rewrite creations_app. destruct e; simpl; try lia. by destruct (He c h).
Qed.

Lemma cache_grows_same_cache d d' e :
  handles d' = handles d → trace d' = trace d ++ [e] →
  (∀ c h, e ≠ EvCreateHandle c h) → cache_grows d d'.
Proof.
  intros Hh Ht He. split; [by rewrite Hh|].
  intros Hd ctx. by rewrite Hh, Ht, creations_log.
Qed.

Lemma cache_grows_set_memory m d : cache_grows d (set_memory m d).
Proof. done. Qed.

Lemma cache_grows_get_handle sc q d : cache_grows d (get_handle sc q d).2.
Proof.
  split; [|apply get_handle_consistent].
  intros ctx h Hh. unfold get_handle.
  destruct (q_backend q); [|done].
  destruct (q_context q) as [c|]; [|done].
  destruct (handles d !! c) eqn:Hc; [done|]. simpl.
  rewrite lookup_insert_ne; [done | congruence].
Qed.

Lemma cache_grows_native func h args d :
  cache_grows d (CUBLAS_ERROR_FUNC func h args d).2.
Proof.
  unfold CUBLAS_ERROR_FUNC. destruct (fn_run _ _ _ _) as [err mem'].
  assert (cache_grows d (log (EvNativeCall (fn_name func) h (mode_of d h) args err)
                            (set_memory mem' d))).
  { by eapply cache_grows_same_cache. }
  by destruct (decide _).
Qed.

Lemma cache_grows_launch sw func q args d :
  cache_grows d (launch_task sw func q args d).2.
Proof.
  revert d. apply launch_task_rel.
  - apply cache_grows_refl.
  - apply cache_grows_trans.
  - intros. apply cache_grows_get_handle.
  - intros _ h d. by eapply cache_grows_same_cache.
  - intros. apply cache_grows_native.
Qed.

(** X10.  Over any sequence of level-1 routines a cached handle is never
    dropped or replaced, and, from a consistent cache, at most one handle
    is created for each context. *)
Theorem cache_entries_are_never_replaced run qcs d :
  let d' := dev ((run_calls (run_call run) qcs ;;; wait) (Runtime d [])).2 in
  (∀ ctx h, handles d !! ctx = Some h → handles d' !! ctx = Some h) ∧
  (cache_consistent d → ∀ ctx, (creations ctx (trace d') ≤ 1)%nat).
Proof.
  pose proof (host_ok_completed
                (λ t, ∀ d, cache_grows d (t d).2)
                (λ rt rt', cache_grows (dev rt) (dev rt'))) as H.
  simpl. destruct (H (λ _, cache_grows_refl _)
                     (λ rt1 rt2 rt3, cache_grows_trans _ _ _)) with (run := run) (qcs := qcs) (d := d) as [H1 H2].
  - intros reqs t rt _. by eapply cache_grows_same_cache.
  - intros t ts d0 Ht. apply Ht.
  - intros. apply cache_grows_set_memory.
  - intros. by eapply cache_grows_same_cache.
  - intros. apply cache_grows_launch.
  - split; [done|]. intros Hd ctx. rewrite (H2 Hd ctx).
    destruct (handles _ !! ctx); lia.
Qed.

(** *** Native calls and submissions *)

Lemma native_calls_app evs1 evs2 :
  native_calls (evs1 ++ evs2) = native_calls evs1 ++ native_calls evs2.
Proof. apply omap_app. Qed.

Lemma submits_app evs1 evs2 : submits (evs1 ++ evs2) = submits evs1 ++ submits evs2.
Proof. apply omap_app. Qed.

Lemma calls_at_most_get_handle sc q d : calls_at_most 0 d (get_handle sc q d).2.
Proof.
  unfold calls_at_most, get_handle.
  destruct (q_backend q); [|simpl; lia].
  destruct (q_context q) as [c|]; [|simpl; lia].
  destruct (handles d !! c); simpl; [lia|].
  rewrite native_calls_app, submits_app, !length_app. simpl. lia.
Qed.

Lemma calls_at_most_switch h m d : calls_at_most 0 d (cublasSetPointerMode h m d).2.
Proof.
  unfold calls_at_most. simpl.
  rewrite native_calls_app, submits_app, !length_app. simpl. lia.
Qed.

Lemma calls_at_most_native func h args d :
  calls_at_most 1 d (CUBLAS_ERROR_FUNC func h args d).2.
Proof.
  unfold calls_at_most, CUBLAS_ERROR_FUNC. destruct (fn_run _ _ _ _) as [err mem'].
  destruct (decide _); simpl;
    rewrite native_calls_app, submits_app, !length_app; simpl; lia.
Qed.

Lemma calls_at_most_launch sw func q args d :
  calls_at_most 1 d (launch_task sw func q args d).2.
Proof.
  unfold launch_task, se_bind, CublasScopedContextHandler, se_ret.
  pose proof (calls_at_most_get_handle tt q d) as [H1 H2].
  destruct (get_handle tt q d) as [[h|f] d1]; simpl in *; [|split; lia].
  assert (calls_at_most 0 d1
            ((if sw then cublasSetPointerMode h CUBLAS_POINTER_MODE_DEVICE
              else (λ s, (Ok tt, s))) d1).2) as [H3 H4].
  { destruct sw; [apply calls_at_most_switch | split; simpl; lia]. }
  destruct sw; simpl in *.
  - pose proof (calls_at_most_native func h args
                  (cublasSetPointerMode h CUBLAS_POINTER_MODE_DEVICE d1).2) as [H5 H6].
    simpl in *. split; [lia | congruence].
  - pose proof (calls_at_most_native func h args d1) as [H5 H6].
    split; [lia | congruence].
Qed.

(** X11.  Over any sequence of level-1 routines, on any queues and
    whatever faults occur, there are never more native calls than
    submitted command groups: nothing is retried or called twice. *)
Theorem no_more_native_calls_than_submissions run qcs d :
  let d' := dev ((run_calls (run_call run) qcs ;;; wait) (Runtime d [])).2 in
  (length (native_calls (trace d')) + length (submits (trace d))
   ≤ length (submits (trace d')) + length (native_calls (trace d)))%nat.
Proof.
  pose proof (host_ok_completed
                (λ t, ∀ d, calls_at_most 1 d (t d).2)
                (λ rt rt', slack rt ≤ slack rt')) as H.
  simpl. 
  assert (slack (Runtime d []) ≤
          slack ((run_calls (run_call run) qcs ;;; wait) (Runtime d [])).2) as Hs.
  { apply H.
    - intros. lia.
    - intros. lia.
    - intros reqs t rt _. unfold slack. simpl.
      rewrite native_calls_app, submits_app, !length_app. simpl. lia.
    - intros t ts d0 Ht. destruct (Ht d0) as [H1 H2]. unfold slack. simpl. lia.
    - intros. unfold slack. simpl. lia.
    - intros. unfold slack. simpl.
      rewrite native_calls_app, submits_app, !length_app. simpl. lia.
    - intros. apply calls_at_most_launch. }
  unfold slack in Hs. simpl in Hs. lia.
Qed.

(** *** Routines without a switch *)

Lemma same_modes_get_handle sc q d : same_modes d (get_handle sc q d).2.
Proof.
  intros h. unfold get_handle.
  destruct (q_backend q); [|done].
  destruct (q_context q) as [c|]; [|done].
  destruct (handles d !! c); [done|]. unfold mode_of. simpl.
  destruct (decide (h = fresh (dom (pointer_modes d) ∪ map_img (handles d))))
    as [->|Hne]; [|by rewrite lookup_insert_ne].
  rewrite lookup_insert_eq.
  pose proof (is_fresh (dom (pointer_modes d) ∪ map_img (handles d))) as Hfresh.
  apply not_elem_of_union in Hfresh as [Hfresh _].
  rewrite not_elem_of_dom in Hfresh. by rewrite Hfresh.
Qed.

Lemma same_modes_native func h args d :
  same_modes d (CUBLAS_ERROR_FUNC func h args d).2.
Proof.
  intros h'. unfold CUBLAS_ERROR_FUNC. destruct (fn_run _ _ _ _) as [err mem'].
  by destruct (decide _).
Qed.

Lemma same_modes_launch func q args d :
  same_modes d (launch_task false func q args d).2.
Proof.
  revert d. apply launch_task_rel.
  - by intros d h.
  - intros d1 d2 d3 H1 H2 h. by rewrite H2.
  - intros. apply same_modes_get_handle.
  - done.
  - intros. apply same_modes_native.
Qed.

(** X6.  scal, axpy, copy, rot and swap, in any number and order, on any
    queues, change the pointer mode of no handle, not even when they
    create one. *)
Theorem routines_without_switch_change_no_pointer_mode run qcs d :
  (∀ q c, (q, c) ∈ qcs → switches c = false) →
  let d' := dev ((run_calls (run_call run) qcs ;;; wait) (Runtime d [])).2 in
  ∀ h, mode_of d' h = mode_of d h.
Proof.
  intros Hns.
  apply (host_ok_completed
           (λ t, ∀ d, same_modes d (t d).2)
           (λ rt rt', same_modes (dev rt) (dev rt'))).
  - by intros rt h.
  - intros rt1 rt2 rt3 H1 H2 h. by rewrite H2.
  - by intros reqs t rt _ h.
  - intros t ts d0 Ht. apply Ht.
  - by intros rt m h.
  - by intros rt b m h.
  - intros q c func args Hin. rewrite (Hns q c Hin). apply same_modes_launch.
Qed.

(** ** Pointer modes of one invocation *)

(** X5.  A routine changes the pointer mode of no handle but the one of
    its queue's context. *)
Theorem other_handles_keep_their_mode run q c d ctx :
  q_backend q = true → q_context q = Some ctx → fits_dims c = true →
  let d' := dev ((run_call run q c ;;; wait) (Runtime d [])).2 in
  ∀ h', handles d' !! ctx ≠ Some h' → mode_of d' h' = mode_of d h'.
Proof.
  intros Hb Hc Hfit d' h' Hother. subst d'.
  destruct (run_to_completion run q c d ctx Hb Hc Hfit)
    as (h & reqs & args & err & post & H).
  destruct ((run_call run q c ;;; wait) (Runtime d [])) as [r rt'].
  destruct H as (_ & _ & _ & Hh & _ & Hpm & _). simpl in *.
  assert (h ≠ h') as Hne.
  { intros ->. apply Hother. rewrite Hh. apply lookup_insert_eq. }
  unfold mode_of. rewrite Hpm.
  destruct (switches c), (handles d !! ctx); simpl;
    by rewrite ?lookup_insert_ne by done.
Qed.

(** X7.  Every routine whose task calls [cublasSetPointerMode] -- rotm,
    iamax and iamin as well as the scalar-result routines -- makes the
    switch right before its one native call, which runs in device pointer
    mode, and leaves the handle in that mode. *)
Theorem every_switching_routine_calls_in_device_mode run q c d ctx :
  q_backend q = true → q_context q = Some ctx → fits_dims c = true →
  switches c = true →
  ∃ h pre args err post,
    let rt' := ((run_call run q c ;;; wait) (Runtime d [])).2 in
    trace (dev rt') =
      trace d ++ pre
        ++ [EvSetPointerMode h CUBLAS_POINTER_MODE_DEVICE;
            EvNativeCall (fn_name (native_of run c)) h
              CUBLAS_POINTER_MODE_DEVICE args err]
        ++ post ∧
    native_calls pre = [] ∧ native_calls post = [] ∧
    handles (dev rt') !! ctx = Some h ∧
    mode_of (dev rt') h = CUBLAS_POINTER_MODE_DEVICE.
Proof.
  intros Hb Hc Hfit Hsw.
  destruct (run_to_completion run q c d ctx Hb Hc Hfit)
    as (h & reqs & args & err & post & H).
  destruct ((run_call run q c ;;; wait) (Runtime d [])) as [r rt'].
  rewrite Hsw in H.
  destruct H as (Htr & Hpost & _ & Hh & _ & Hpm & _). simpl.
  exists h, (EvSubmit reqs :: match handles d !! ctx with
                             | Some _ => []
                             | None => [EvCreateHandle ctx h]
                             end), args, err, post.
  split_and!.
  - rewrite Htr. by destruct (handles d !! ctx).
  - by destruct (handles d !! ctx).
  - by apply native_calls_host_access.
  - rewrite Hh. apply lookup_insert_eq.
  - unfold mode_of. rewrite Hpm. by rewrite lookup_insert_eq.
Qed.

(** X8.  On a context whose handle is new, or cached and still in host
    pointer mode, scal, axpy, copy, rot and swap make their native call in
    host pointer mode and leave the handle in it. *)
Theorem unswitched_handle_is_called_in_host_mode run q c d ctx :
  q_backend q = true → q_context q = Some ctx → fits_dims c = true →
  switches c = false →
  (∀ h0, handles d !! ctx = Some h0 → mode_of d h0 = CUBLAS_POINTER_MODE_HOST) →
  ∃ h reqs created args err,
    let rt' := ((run_call run q c ;;; wait) (Runtime d [])).2 in
    trace (dev rt') =
      trace d ++ EvSubmit reqs :: created
        ++ [EvNativeCall (fn_name (native_of run c)) h
              CUBLAS_POINTER_MODE_HOST args err] ∧
    native_calls created = [] ∧
    handles (dev rt') !! ctx = Some h ∧
    mode_of (dev rt') h = CUBLAS_POINTER_MODE_HOST.
Proof.
  intros Hb Hc Hfit Hsw Hhost.
  destruct (run_to_completion run q c d ctx Hb Hc Hfit)
    as (h & reqs & args & err & post & H).
  destruct ((run_call run q c ;;; wait) (Runtime d [])) as [r rt'].
  rewrite Hsw in H.
  destruct H as (Htr & _ & _ & Hh & Hsame & Hpm & _ & _ & Hpost). simpl in *.
  rewrite (Hpost eq_refl) in Htr.
  exists h, reqs, (match handles d !! ctx with
                   | Some _ => []
                   | None => [EvCreateHandle ctx h]
                   end), args, err.
  destruct (handles d !! ctx) as [h0|] eqn:Hcache.
  - specialize (Hsame h0 eq_refl). subst h0. specialize (Hhost h eq_refl).
    split_and!; [by rewrite Htr, Hhost | done | rewrite Hh; apply lookup_insert_eq |].
    unfold mode_of in *. by rewrite Hpm.
  - split_and!; [done | done | rewrite Hh; apply lookup_insert_eq |].
    unfold mode_of. rewrite Hpm. simpl. by rewrite lookup_insert_eq.
Qed.

(** ** Accessors, handles and memory *)

(** X3.  In every routine the buffers handed to the native call as device
    pointers are the buffers for which the command group requested an
    accessor, in the same order: no pointer is resolved without an
    accessor and no accessor is requested in vain. *)
Theorem every_device_pointer_has_an_accessor run q c d ctx :
  q_backend q = true → q_context q = Some ctx → fits_dims c = true →
  ∃ evs reqs args,
    let rt' := ((run_call run q c ;;; wait) (Runtime d [])).2 in
    trace (dev rt') = trace d ++ evs ∧
    submits evs = [reqs] ∧ native_args evs = [args] ∧
    device_pointers args = reqs.*1.
Proof.
  intros Hb Hc Hfit. destruct c.
  all: exec; flatten_trace.
  all: eexists _, _, _; split_and!; [reflexivity | reflexivity | reflexivity | reflexivity].
Qed.

(** X9.  The handle is acquired before anything else in the task: on a
    queue without a backend or without a native context the operation
    ends in that fault, with the submission logged and nothing else: no
    native call, no handle created, no pointer mode changed. *)
Theorem no_native_call_without_a_handle run q c d :
  q_backend q = false ∨ q_context q = None → fits_dims c = true →
  let '(r, rt') := (run_call run q c ;;; wait) (Runtime d []) in
  r = Raise (DeviceFault (if q_backend q then ContextBindingError
                          else BackendUnavailable)) ∧
  handles (dev rt') = handles d ∧
  pointer_modes (dev rt') = pointer_modes d ∧
  ∃ reqs, trace (dev rt') = trace d ++ [EvSubmit reqs].
Proof.
  intros Hq Hfit. destruct c.
  all: destruct Hq as [Hq|Hq]; exec; flatten_trace.
  all: split_and!; [done | done | done | by eexists].
Qed.

(** ** Index conversion and the emulated routines *)

(** X12.  The conversion [std::max((int64_t)i - 1, 0)] of an [int] never
    wraps and never yields a negative index: a one-based index i >= 1
    becomes i - 1 and everything below, the "none" value 0 included,
    becomes 0, so 0 and 1 are not told apart. *)
Theorem zero_based_index_range i :
  is_int i →
  0 ≤ zero_based i ≤ 2 ^ 31 - 2 ∧
  (1 ≤ i → zero_based i = i - 1) ∧
  (i ≤ 1 → zero_based i = 0).
Proof.
  intros Hi. rewrite (zero_based_int i Hi). unfold is_int in Hi. lia.
Qed.

(** X13.  Whatever the native routine does, when iamax or iamin returns
    normally the first cell of the caller's result buffer holds an
    [int64_t] that is not negative. *)
Theorem index_routines_write_a_natural_number routine func q n x incx result rt rt' :
  routine = iamax ∨ routine = iamin →
  is_Some (memory (dev rt) !! result) →
  routine func q n x incx result rt = (Ok tt, rt') →
  ∃ v cells, memory (dev rt') !! result = Some (VInt64 v :: cells) ∧ 0 ≤ v.
Proof.
  intros Hr Hres Hrun.
  pose proof (fresh_buffer_ne _ _ Hres) as Hne.
  destruct Hr; subst routine.
  all: exec.
  all: match goal with
       | |- context [<[0%nat := VInt64 (zero_based ?z)]> ?l] =>
           destruct l; [simpl in *; lia|]; exists (zero_based z)
       end.
  all: eexists; split;
         [ rewrite lookup_delete_ne, lookup_insert_eq by done; reflexivity
         | unfold zero_based; lia ].
Qed.

(** X14.  sdsdot is the float [dot] launcher on [cublasSdot] followed by
    the addition of [sb] through a host accessor: same check, same
    submission, same task. *)
Theorem sdsdot_is_dot_then_host_addition run q n sb x incx y incy result rt :
  sdsdot run q n sb x incx y incy result rt =
    (dot (cublasSdot run) q n x incx y incy result ;;;
     acc <- host_access result read_write ;;
     r <- host_read acc 0 ;;
     match r with
     | VFloat f => host_write acc 0 (VFloat (float_add f sb))
     | _ => raise InvalidAccess
     end) rt.
Proof.
  unfold sdsdot, dot, se_bind, overflow_check.
  by destruct (fits_native _).
Qed.

(** ** Instances *)

Lemma synchronous_routine_completes_its_group_witness :
  let rt' :=
    (run_call ref_sdot_run cuda_queue example_sdsdot (Runtime cold_device [])).2 in
  pending rt' = [] ∧
  ∃ evs, trace (dev rt') = trace cold_device ++ evs ∧
         length (submits evs) = 1%nat ∧
         native_calls evs = [("cublasSdot", CUBLAS_STATUS_SUCCESS)].
Proof.
  apply (synchronous_routine_completes_its_group ref_sdot_run cuda_queue example_sdsdot
           cold_device); [reflexivity | vm_compute; reflexivity].
Defined.

Lemma every_device_pointer_has_an_accessor_witness :
  ∃ evs reqs args,
    let rt' := ((run_call ref_sdot_run cuda_queue example_sdsdot ;;; wait)
                  (Runtime cold_device [])).2 in
    trace (dev rt') = trace cold_device ++ evs ∧
    submits evs = [reqs] ∧ native_args evs = [args] ∧
    device_pointers args = reqs.*1.
Proof.
  apply (every_device_pointer_has_an_accessor ref_sdot_run cuda_queue example_sdsdot
           cold_device 7%nat); reflexivity.
Defined.

Lemma other_handles_keep_their_mode_witness :
  let d' := dev ((run_call ref_sdot_run cuda_queue example_sdsdot ;;; wait)
                   (Runtime warm_device [])).2 in
  mode_of d' 1%nat = mode_of warm_device 1%nat.
Proof.
  apply (other_handles_keep_their_mode ref_sdot_run cuda_queue example_sdsdot
           warm_device 7%nat); [reflexivity | reflexivity | reflexivity |].
  vm_compute. discriminate.
Defined.

Lemma routines_without_switch_change_no_pointer_mode_witness :
  let d' := dev ((run_calls (run_call ref_sdot_run) [(cuda_queue, example_scal)] ;;; wait)
                   (Runtime warm_device [])).2 in
  mode_of d' 0%nat = mode_of warm_device 0%nat.
Proof.
  apply (routines_without_switch_change_no_pointer_mode ref_sdot_run
           [(cuda_queue, example_scal)] warm_device).
  intros q c Hin. apply list_elem_of_singleton in Hin. injection Hin as -> ->.
  reflexivity.
Defined.

Lemma every_switching_routine_calls_in_device_mode_witness :
  ∃ h pre args err post,
    let rt' := ((run_call ref_sdot_run cuda_queue (Iamax cublasIsamax 3 0%nat 1 4%nat)
                   ;;; wait) (Runtime warm_device [])).2 in
    trace (dev rt') =
      trace warm_device ++ pre
        ++ [EvSetPointerMode h CUBLAS_POINTER_MODE_DEVICE;
            EvNativeCall "cublasIsamax" h CUBLAS_POINTER_MODE_DEVICE args err]
        ++ post ∧
    native_calls pre = [] ∧ native_calls post = [] ∧
    handles (dev rt') !! 7%nat = Some h ∧
    mode_of (dev rt') h = CUBLAS_POINTER_MODE_DEVICE.
Proof.
  apply (every_switching_routine_calls_in_device_mode ref_sdot_run cuda_queue
           (Iamax cublasIsamax 3 0%nat 1 4%nat) warm_device 7%nat); reflexivity.
Defined.

Lemma unswitched_handle_is_called_in_host_mode_witness :
  ∃ h reqs created args err,
    let rt' := ((run_call ref_sdot_run cuda_queue example_scal ;;; wait)
                  (Runtime cold_device [])).2 in
    trace (dev rt') =
      trace cold_device ++ EvSubmit reqs :: created
        ++ [EvNativeCall "cublasSscal" h CUBLAS_POINTER_MODE_HOST args err] ∧
    native_calls created = [] ∧
    handles (dev rt') !! 7%nat = Some h ∧
    mode_of (dev rt') h = CUBLAS_POINTER_MODE_HOST.
Proof.
  apply (unswitched_handle_is_called_in_host_mode ref_sdot_run cuda_queue example_scal
           cold_device 7%nat); [reflexivity | reflexivity | reflexivity | reflexivity |].
  intros h0 H. vm_compute in H. discriminate H.
Defined.

Lemma no_native_call_without_a_handle_witness :
  let '(r, rt') := (run_call ref_sdot_run no_backend_queue example_scal ;;; wait)
                     (Runtime cold_device []) in
  r = Raise (DeviceFault BackendUnavailable) ∧
  handles (dev rt') = handles cold_device ∧
  pointer_modes (dev rt') = pointer_modes cold_device ∧
  ∃ reqs, trace (dev rt') = trace cold_device ++ [EvSubmit reqs].
Proof.
  apply (no_native_call_without_a_handle ref_sdot_run no_backend_queue example_scal
           cold_device); [by left | reflexivity].
Defined.

Lemma zero_based_index_range_witness :
  0 ≤ zero_based 5 ≤ 2 ^ 31 - 2 ∧
  (1 ≤ 5 → zero_based 5 = 5 - 1) ∧
  (5 ≤ 1 → zero_based 5 = 0).
Proof. apply (zero_based_index_range 5). unfold is_int. lia. Defined.

Lemma index_routines_write_a_natural_number_witness :
  ∃ v cells,
    memory (dev (iamax cublasIsamax cuda_queue 3 5%nat 1 4%nat
                   (Runtime cold_device [])).2) !! 4%nat
      = Some (VInt64 v :: cells) ∧ 0 ≤ v.
Proof.
  apply (index_routines_write_a_natural_number iamax cublasIsamax cuda_queue 3 5%nat 1
           4%nat (Runtime cold_device []));
    [by left | vm_compute; eauto | vm_compute; reflexivity].
Defined.

Lemma cache_entries_are_never_replaced_witness :
  let d' := dev ((run_calls (run_call ref_sdot_run)
                    [(cuda_queue, example_sdsdot); (cuda_queue, example_scal)] ;;; wait)
                   (Runtime cold_device [])).2 in
  (creations 7%nat (trace d') ≤ 1)%nat.
Proof.
  apply (cache_entries_are_never_replaced ref_sdot_run
           [(cuda_queue, example_sdsdot); (cuda_queue, example_scal)] cold_device).
  intros ctx. reflexivity.
Defined.

(** X4.  The ten routines that only submit add no memory effect of their
    own: once the work has completed, device memory is what the one native
    call left, and the operation ends normally exactly when that call
    reported success. *)
Theorem plain_launcher_adds_no_memory_effect run q c d ctx :
  q_backend q = true → q_context q = Some ctx → fits_dims c = true →
  synchronises c = false →
  ∃ m args status mem',
    let '(r, rt') := (run_call run q c ;;; wait) (Runtime d []) in
    fn_run (native_of run c) m args (memory d) = (status, mem') ∧
    native_args (trace (dev rt')) = native_args (trace d) ++ [args] ∧
    memory (dev rt') = mem' ∧
    (r = Ok tt ↔ status = CUBLAS_STATUS_SUCCESS).
Proof.
  intros Hb Hc Hfit Hs. destruct c; try discriminate Hs.
  all: exec; flatten_trace.
  all: eexists _, _, _, _; split; [eassumption|].
  all: rewrite native_args_app; split_and!; [reflexivity | reflexivity |].
  all: split; intros; congruence.
Qed.

Lemma rotmg_exec func q ctx d d1 d2 x1 y1 param m1 :
  q_backend q = true → q_context q = Some ctx →
  fn_run func CUBLAS_POINTER_MODE_DEVICE
    [ADev d1; ADev d2; ADev x1; ADev (fresh (dom (memory d))); ADev param]
    (<[fresh (dom (memory d)) := [y1]]> (memory d)) = (CUBLAS_STATUS_SUCCESS, m1) →
  ∃ h pre rt',
    rotmg func q d1 d2 x1 y1 param (Runtime d []) = (Ok tt, rt') ∧
    pending rt' = [] ∧
    memory (dev rt') = delete (fresh (dom (memory d))) m1 ∧
    trace (dev rt') =
      trace d ++ pre
        ++ [EvSetPointerMode h CUBLAS_POINTER_MODE_DEVICE;
            EvNativeCall (fn_name func) h CUBLAS_POINTER_MODE_DEVICE
              [ADev d1; ADev d2; ADev x1; ADev (fresh (dom (memory d))); ADev param]
              CUBLAS_STATUS_SUCCESS].
Proof.
  intros Hb Hc Hrun.
  exec_facts; try done.
  all: flatten_trace; give_trace.
Qed.

(** X15.  rotmg hands the host scalar [y1] to cuBLAS as a device pointer
    to a fresh one-cell buffer holding [y1]; it waits for the call, and the
    buffer is gone when it returns. *)
Theorem rotmg_passes_host_scalar_in_a_buffer func q ctx d d1 d2 x1 y1 param m1 :
  q_backend q = true → q_context q = Some ctx →
  let y1_buff := fresh (dom (memory d)) in
  let args := [ADev d1; ADev d2; ADev x1; ADev y1_buff; ADev param] in
  fn_run func CUBLAS_POINTER_MODE_DEVICE args (<[y1_buff := [y1]]> (memory d))
    = (CUBLAS_STATUS_SUCCESS, m1) →
  ∃ h pre rt',
    rotmg func q d1 d2 x1 y1 param (Runtime d []) = (Ok tt, rt') ∧
    pending rt' = [] ∧
    memory (dev rt') = delete y1_buff m1 ∧
    trace (dev rt') =
      trace d ++ pre
        ++ [EvSetPointerMode h CUBLAS_POINTER_MODE_DEVICE;
            EvNativeCall (fn_name func) h CUBLAS_POINTER_MODE_DEVICE args
              CUBLAS_STATUS_SUCCESS].
Proof. intros. by eapply rotmg_exec. Qed.

Lemma plain_launcher_adds_no_memory_effect_witness :
  ∃ m args status mem',
    let '(r, rt') := (run_call ref_sdot_run cuda_queue example_scal ;;; wait)
                       (Runtime cold_device []) in
    fn_run cublasSscal m args (memory cold_device) = (status, mem') ∧
    native_args (trace (dev rt')) = native_args (trace cold_device) ++ [args] ∧
    memory (dev rt') = mem' ∧
    (r = Ok tt ↔ status = CUBLAS_STATUS_SUCCESS).
Proof.
  apply (plain_launcher_adds_no_memory_effect ref_sdot_run cuda_queue example_scal
           cold_device 7%nat); reflexivity.
Defined.

Lemma rotmg_passes_host_scalar_in_a_buffer_witness :
  let y1_buff := fresh (dom example_memory) in
  ∃ h pre rt',
    rotmg cublasSrotmg cuda_queue 0%nat 1%nat 2%nat (VFloat (f32 3 0)) 3%nat
      (Runtime cold_device []) = (Ok tt, rt') ∧
    pending rt' = [] ∧
    memory (dev rt') =
      delete y1_buff (<[y1_buff := [VFloat (f32 3 0)]]> example_memory) ∧
    trace (dev rt') =
      trace cold_device ++ pre
        ++ [EvSetPointerMode h CUBLAS_POINTER_MODE_DEVICE;
            EvNativeCall "cublasSrotmg" h CUBLAS_POINTER_MODE_DEVICE
              [ADev 0%nat; ADev 1%nat; ADev 2%nat; ADev y1_buff; ADev 3%nat]
              CUBLAS_STATUS_SUCCESS].
Proof.
  apply (rotmg_passes_host_scalar_in_a_buffer cublasSrotmg cuda_queue 7%nat cold_device);
    reflexivity.
Defined.
